(** * rap-voice: sharing a local video file into a call

    A shallow embedding of the share coordinator ([ShareProvider] of
    [useShare.ts] and its two video-file variants), of the remote playback
    controls ([useVideoControls.ts]), of the capture-and-publish engine
    ([useVideoFileShare], in its multi-audio and single-audio versions) and
    of the file-selection handlers, followed by the properties of the
    specification that were checked against them.

    Conventions.
    - React state ([useState]) and refs ([useRef]) are fields of one record
      per hook; a setter call is an immediate write to the field.
    - A value that a callback captured when it was created (a closure over
      a render's state) is written as an argument of the callback.
    - JavaScript numbers are restricted to the integers and [NaN]; on the
      safe integers addition, [Math.min] and [Math.max] are exact.
    - Calls to collaborators (the room's local participant, the video
      element, the option callbacks) are recorded in a chronological log. *)

From stdpp Require Import base strings list gmap pretty.
From Stdlib Require Import ZArith Lia.

(** ** JavaScript values *)

Inductive number : Type :=
  | NaN
  | Num (z : Z).

Definition number_add (a b : number) : number :=
  match a, b with
  | Num x, Num y => Num (x + y)
  | _, _ => NaN
  end.

(** [Math.max] and [Math.min] return [NaN] as soon as one argument is. *)
Definition Math_max (a b : number) : number :=
  match a, b with
  | Num x, Num y => Num (Z.max x y)
  | _, _ => NaN
  end.

Definition Math_min (a b : number) : number :=
  match a, b with
  | Num x, Num y => Num (Z.min x y)
  | _, _ => NaN
  end.

(** [String(v)] for a boolean and for a number. *)
Definition String_of_bool (b : bool) : string :=
  if b then "true" else "false".

Definition String_of_number (n : number) : string :=
  match n with
  | NaN => "NaN"
  | Num z => pretty z
  end.

(** [s.startsWith(p)] *)
Fixpoint startsWith (p s : string) : bool :=
  match p, s with
  | EmptyString, _ => true
  | String a p', String b s' => if Ascii.eqb a b then startsWith p' s' else false
  | String _ _, EmptyString => false
  end.
Arguments startsWith : simpl never.

(** A thrown value, as a [catch (err)] clause receives it. *)
Record Error : Type := mkError { message : string }.

Inductive Thrown : Type :=
  | ThrownError (e : Error)
  | ThrownOther.

(** [err instanceof Error ? err : new Error(fallback)] *)
Definition as_Error (err : Thrown) (fallback : string) : Error :=
  match err with
  | ThrownError e => e
  | ThrownOther => mkError fallback
  end.

(** How an awaited promise settles. *)
Inductive Settled : Type :=
  | Resolved
  | Rejected (err : Thrown).

(** ** Browser objects *)

Record File : Type := mkFile {
  file_name : string;
  file_type : string;
  file_size : N
}.

Record HTMLVideoElement : Type := mkVideo {
  paused : bool;
  muted : bool;
  el_currentTime : number;
  el_duration : number;
  el_volume : number;
  el_playbackRate : number
}.

Inductive ShareType : Type :=
  | SCREEN
  | VIDEO.

(** ** The share coordinator of [useShare.ts]

    [ShareProvider] of [packages/react/src/hooks/useShare.ts]: the panel
    flag, [isSharing], [activeType] and the [stopHandlerRef] ref. *)

Module UseShare.

(** A registered stop handler is an async function of the caller.  From
    the coordinator's side it is the calls it makes on the context value
    before it settles, and whether it settles by rejecting. *)
Inductive StopHandler : Type :=
  | mkStopHandler (calls : list Call) (settles : Settled)
with Call : Type :=
  | CallOpen
  | CallClose
  | CallToggle
  | CallSetSharing (sharing : bool) (type : option ShareType)
  | CallSetStopHandler (fn : option StopHandler).

Record State : Type := mkState {
  isOpen : bool;
  isSharing : bool;
  activeType : option ShareType;
  stopHandlerRef : option StopHandler
}.

Definition initial : State := mkState false false None None.

Definition setIsOpen (v : bool) (s : State) : State :=
  mkState v (isSharing s) (activeType s) (stopHandlerRef s).
Definition setIsSharing (v : bool) (s : State) : State :=
  mkState (isOpen s) v (activeType s) (stopHandlerRef s).
Definition setActiveType (v : option ShareType) (s : State) : State :=
  mkState (isOpen s) (isSharing s) v (stopHandlerRef s).

Definition open (s : State) : State := setIsOpen true s.
Definition close (s : State) : State := setIsOpen false s.
Definition toggle (s : State) : State := setIsOpen (negb (isOpen s)) s.

Definition setStopHandler (fn : option StopHandler) (s : State) : State :=
  mkState (isOpen s) (isSharing s) (activeType s) fn.

Definition setSharing (sharing : bool) (type : option ShareType) (s : State) : State :=
  let s := setIsSharing sharing s in
  if sharing then setActiveType type s else setActiveType None s.

Definition run_call (c : Call) (s : State) : State :=
  match c with
  | CallOpen => open s
  | CallClose => close s
  | CallToggle => toggle s
  | CallSetSharing sharing type => setSharing sharing type s
  | CallSetStopHandler fn => setStopHandler fn s
  end.

(** [await stopHandlerRef.current()] *)
Definition call_handler (h : StopHandler) (s : State) : Settled * State :=
  match h with
  | mkStopHandler calls settles => (settles, foldl (fun s c => run_call c s) s calls)
  end.

(** [stop] (lines 44-54): the handler's rejection is caught and ignored;
    [stopHandlerRef.current] is read, never written. *)
Definition stop (s : State) : Settled * State :=
  let s :=
    match stopHandlerRef s with
    | Some h =>
        match call_handler h s with
        | (Resolved, s') => s'
        | (Rejected _, s') => s'
        end
    | None => s
    end in
  let s := setIsSharing false s in
  let s := setActiveType None s in
  (Resolved, s).

(** The operations of the context value. *)
Inductive Op : Type :=
  | OpOpen
  | OpClose
  | OpToggle
  | OpSetSharing (sharing : bool) (type : option ShareType)
  | OpSetStopHandler (fn : option StopHandler)
  | OpStop.

Definition run_op (o : Op) (s : State) : State :=
  match o with
  | OpOpen => open s
  | OpClose => close s
  | OpToggle => toggle s
  | OpSetSharing sharing type => setSharing sharing type s
  | OpSetStopHandler fn => setStopHandler fn s
  | OpStop => snd (stop s)
  end.

Definition run_ops (ops : list Op) (s : State) : State :=
  foldl (fun s o => run_op o s) s ops.

(** The reference the handler leaves behind when it is called with
    reference [r] in place. *)
Definition ref_after_calls (calls : list Call) (r : option StopHandler) : option StopHandler :=
  foldl (fun r c => match c with CallSetStopHandler fn => fn | _ => r end) r calls.

(** What [ScreenShareTab.onChange] does with the context value. *)
Definition onChange_enabled (fn : StopHandler) (s : State) : State :=
  close (setStopHandler (Some fn) (setSharing true (Some SCREEN) s)).
Definition onChange_disabled (s : State) : State :=
  setStopHandler None (setSharing false None s).

End UseShare.

(** ** The coordinator with video-file state

    The [ShareProvider] of [unnamed/part_000], which also owns the selected
    file and the bound video element, and whose [stop] (lines 86-102) clears
    them when the video mode was active.  (Its playback read model is the one of [VideoControls] below and
    is left out here: [stop] and the file input do not touch it.) *)

Module ShareVideo.

Inductive StopHandler : Type :=
  | mkStopHandler (calls : list Call) (settles : Settled)
with Call : Type :=
  | CallOpen
  | CallClose
  | CallToggle
  | CallSetSharing (sharing : bool) (type : option ShareType)
  | CallSetStopHandler (fn : option StopHandler)
  | CallSetSelectedFile (file : option File)
  | CallSetVideoElement (element : option HTMLVideoElement).

Record State : Type := mkState {
  isOpen : bool;
  isSharing : bool;
  activeType : option ShareType;
  stopHandlerRef : option StopHandler;
  selectedFile : option File;
  videoElement : option HTMLVideoElement
}.

Definition initial : State := mkState false false None None None None.

Definition setIsOpen (v : bool) (s : State) : State :=
  mkState v (isSharing s) (activeType s) (stopHandlerRef s) (selectedFile s) (videoElement s).
Definition setIsSharing (v : bool) (s : State) : State :=
  mkState (isOpen s) v (activeType s) (stopHandlerRef s) (selectedFile s) (videoElement s).
Definition setActiveType (v : option ShareType) (s : State) : State :=
  mkState (isOpen s) (isSharing s) v (stopHandlerRef s) (selectedFile s) (videoElement s).
Definition setSelectedFile (v : option File) (s : State) : State :=
  mkState (isOpen s) (isSharing s) (activeType s) (stopHandlerRef s) v (videoElement s).
Definition setVideoElement (v : option HTMLVideoElement) (s : State) : State :=
  mkState (isOpen s) (isSharing s) (activeType s) (stopHandlerRef s) (selectedFile s) v.

Definition open (s : State) : State := setIsOpen true s.
Definition close (s : State) : State := setIsOpen false s.
Definition toggle (s : State) : State := setIsOpen (negb (isOpen s)) s.

Definition setStopHandler (fn : option StopHandler) (s : State) : State :=
  mkState (isOpen s) (isSharing s) (activeType s) fn (selectedFile s) (videoElement s).

Definition setSharing (sharing : bool) (type : option ShareType) (s : State) : State :=
  let s := setIsSharing sharing s in
  if sharing then setActiveType type s else setActiveType None s.

Definition run_call (c : Call) (s : State) : State :=
  match c with
  | CallOpen => open s
  | CallClose => close s
  | CallToggle => toggle s
  | CallSetSharing sharing type => setSharing sharing type s
  | CallSetStopHandler fn => setStopHandler fn s
  | CallSetSelectedFile file => setSelectedFile file s
  | CallSetVideoElement element => setVideoElement element s
  end.

Definition call_handler (h : StopHandler) (s : State) : Settled * State :=
  match h with
  | mkStopHandler calls settles => (settles, foldl (fun s c => run_call c s) s calls)
  end.

(** [stop] is rebuilt whenever [activeType] changes, so the [activeType]
    it tests after the handler settled is the one of the state it was
    called in. *)
Definition stop (s : State) : Settled * State :=
  let activeType_captured := activeType s in
  let s :=
    match stopHandlerRef s with
    | Some h =>
        match call_handler h s with
        | (Resolved, s') => s'
        | (Rejected _, s') => s'
        end
    | None => s
    end in
  let s := setIsSharing false s in
  let s :=
    match activeType_captured with
    | Some VIDEO => setVideoElement None (setSelectedFile None s)
    | _ => s
    end in
  let s := setActiveType None s in
  (Resolved, s).

Definition ref_after_calls (calls : list Call) (r : option StopHandler) : option StopHandler :=
  foldl (fun r c => match c with CallSetStopHandler fn => fn | _ => r end) r calls.

(** [onChange] of the provider's hidden file input (lines 241-246);
    [files] is [e.target.files]. *)
Definition onChange (files : list File) (s : State) : State :=
  match head files with
  | Some file =>
      if startsWith "video/" (file_type file) then setSelectedFile (Some file) s else s
  | None => s
  end.

End ShareVideo.

(** ** The coordinator that delegates the read model to [useVideoControls]

    The [ShareProvider] of [unnamed/part_004] (lines 373-414): the same
    provider without the [isSharing] flag; [setSharing] takes the mode
    only. *)

Module ShareControls.

Inductive StopHandler : Type :=
  | mkStopHandler (calls : list Call) (settles : Settled)
with Call : Type :=
  | CallOpen
  | CallClose
  | CallToggle
  | CallSetSharing (type : option ShareType)
  | CallSetStopHandler (fn : option StopHandler)
  | CallSetSelectedFile (file : option File)
  | CallSetVideoElement (element : option HTMLVideoElement).

Record State : Type := mkState {
  isOpen : bool;
  activeType : option ShareType;
  stopHandlerRef : option StopHandler;
  selectedFile : option File;
  videoElement : option HTMLVideoElement
}.

Definition initial : State := mkState false None None None None.

Definition setIsOpen (v : bool) (s : State) : State :=
  mkState v (activeType s) (stopHandlerRef s) (selectedFile s) (videoElement s).
Definition setActiveType (v : option ShareType) (s : State) : State :=
  mkState (isOpen s) v (stopHandlerRef s) (selectedFile s) (videoElement s).
Definition setSelectedFile (v : option File) (s : State) : State :=
  mkState (isOpen s) (activeType s) (stopHandlerRef s) v (videoElement s).
Definition setVideoElement (v : option HTMLVideoElement) (s : State) : State :=
  mkState (isOpen s) (activeType s) (stopHandlerRef s) (selectedFile s) v.

Definition open (s : State) : State := setIsOpen true s.
Definition close (s : State) : State := setIsOpen false s.
Definition toggle (s : State) : State := setIsOpen (negb (isOpen s)) s.

Definition setStopHandler (fn : option StopHandler) (s : State) : State :=
  mkState (isOpen s) (activeType s) fn (selectedFile s) (videoElement s).

Definition setSharing (type : option ShareType) (s : State) : State :=
  setActiveType type s.

Definition run_call (c : Call) (s : State) : State :=
  match c with
  | CallOpen => open s
  | CallClose => close s
  | CallToggle => toggle s
  | CallSetSharing type => setSharing type s
  | CallSetStopHandler fn => setStopHandler fn s
  | CallSetSelectedFile file => setSelectedFile file s
  | CallSetVideoElement element => setVideoElement element s
  end.

Definition call_handler (h : StopHandler) (s : State) : Settled * State :=
  match h with
  | mkStopHandler calls settles => (settles, foldl (fun s c => run_call c s) s calls)
  end.

Definition stop (s : State) : Settled * State :=
  let activeType_captured := activeType s in
  let s :=
    match stopHandlerRef s with
    | Some h =>
        match call_handler h s with
        | (Resolved, s') => s'
        | (Rejected _, s') => s'
        end
    | None => s
    end in
  let s :=
    match activeType_captured with
    | Some VIDEO => setVideoElement None (setSelectedFile None s)
    | _ => s
    end in
  let s := setActiveType None s in
  (Resolved, s).

Inductive Op : Type :=
  | OpOpen
  | OpClose
  | OpToggle
  | OpSetSharing (type : option ShareType)
  | OpSetStopHandler (fn : option StopHandler)
  | OpStop.

Definition run_op (o : Op) (s : State) : State :=
  match o with
  | OpOpen => open s
  | OpClose => close s
  | OpToggle => toggle s
  | OpSetSharing type => setSharing type s
  | OpSetStopHandler fn => setStopHandler fn s
  | OpStop => snd (stop s)
  end.

Definition run_ops (ops : list Op) (s : State) : State :=
  foldl (fun s o => run_op o s) s ops.

Definition ref_after_calls (calls : list Call) (r : option StopHandler) : option StopHandler :=
  foldl (fun r c => match c with CallSetStopHandler fn => fn | _ => r end) r calls.

(** What [ScreenShareTab.onChange] does with the context value. *)
Definition onChange_enabled (fn : StopHandler) (s : State) : State :=
  close (setStopHandler (Some fn) (setSharing (Some SCREEN) s)).
Definition onChange_disabled (s : State) : State :=
  setStopHandler None (setSharing None s).

End ShareControls.

(** ** File selection in [VideoFileModal.tsx] *)

Module VideoFileModal.

Record State : Type := mkState {
  selectedFile : option File;
  error : option string
}.

(** [handleFileSelect] (lines 29-44); [files] is [e.target.files]. *)
Definition handleFileSelect (files : list File) (s : State) : State :=
  match head files with
  | None => s
  | Some file =>
      if negb (startsWith "video/" (file_type file))
      then mkState (selectedFile s) (Some "Please select a valid video file")
      else mkState (Some file) None
  end.

End VideoFileModal.

(** ** The remote playback controls of [useVideoControls.ts] *)

Module VideoControls.

Record ReadModel : Type := mkReadModel {
  isPlaying : bool;
  currentTime : number;
  duration : number;
  volume : number;
  playbackRate : number
}.

Definition initial_model : ReadModel :=
  mkReadModel false (Num 0) (Num 0) (Num 1) (Num 1).

Definition setIsPlaying (v : bool) (m : ReadModel) : ReadModel :=
  mkReadModel v (currentTime m) (duration m) (volume m) (playbackRate m).
Definition setCurrentTime (v : number) (m : ReadModel) : ReadModel :=
  mkReadModel (isPlaying m) v (duration m) (volume m) (playbackRate m).
Definition setDuration (v : number) (m : ReadModel) : ReadModel :=
  mkReadModel (isPlaying m) (currentTime m) v (volume m) (playbackRate m).
Definition setVolume (v : number) (m : ReadModel) : ReadModel :=
  mkReadModel (isPlaying m) (currentTime m) (duration m) v (playbackRate m).
Definition setPlaybackRate (v : number) (m : ReadModel) : ReadModel :=
  mkReadModel (isPlaying m) (currentTime m) (duration m) (volume m) v.

Definition PAUSE_STREAM_METHOD : string := "PausePlayStream".
Definition SEEK_STREAM_METHOD : string := "SeekStream".

(** The two closures the effect hands to [room.registerRpcMethod] (lines
    57-66), each with the state variables of the render it was created
    in. *)
Inductive RpcHandler : Type :=
  | PauseHandler (isPlaying : bool)
  | SeekHandler (currentTime duration : number).

(** The hook's state, the [videoElement] it was given, the room's method
    table and whether the five element listeners are attached. *)
Record World : Type := mkWorld {
  model : ReadModel;
  videoElement : option HTMLVideoElement;
  rpcMethods : gmap string RpcHandler;
  listening : bool
}.

Definition with_model (m : ReadModel) (w : World) : World :=
  mkWorld m (videoElement w) (rpcMethods w) (listening w).
Definition with_element (e : option HTMLVideoElement) (w : World) : World :=
  mkWorld (model w) e (rpcMethods w) (listening w).
Definition with_rpcMethods (r : gmap string RpcHandler) (w : World) : World :=
  mkWorld (model w) (videoElement w) r (listening w).
Definition with_listening (b : bool) (w : World) : World :=
  mkWorld (model w) (videoElement w) (rpcMethods w) b.

Definition registerRpcMethod (name : string) (h : RpcHandler) (w : World) : World :=
  with_rpcMethods (<[name := h]> (rpcMethods w)) w.
Definition unregisterRpcMethod (name : string) (w : World) : World :=
  with_rpcMethods (delete name (rpcMethods w)) w.

(** Body of a registered closure; [offset] is [Number(data.payload)]. *)
Definition run_handler (h : RpcHandler) (offset : number) (w : World) : string * World :=
  match h with
  | PauseHandler isPlaying =>
      (String_of_bool isPlaying, with_model (setIsPlaying (negb isPlaying) (model w)) w)
  | SeekHandler currentTime duration =>
      (String_of_number currentTime,
       with_model
         (setCurrentTime (Math_min (Math_max (Num 0) (number_add currentTime offset)) duration)
            (model w)) w)
  end.

(** A remote participant calls [method]. *)
Definition invoke (method : string) (offset : number) (w : World) : option (string * World) :=
  match rpcMethods w !! method with
  | Some h => Some (run_handler h offset w)
  | None => None
  end.

(** The effect (lines 39-82), run after a render in which [videoElement]
    or [videoSharingActive] changed; the state it reads is the state of that
    render. *)
Definition effect (videoSharingActive : bool) (w : World) : World :=
  match videoElement w with
  | Some el =>
      if videoSharingActive then
        let isPlaying := isPlaying (model w) in
        let currentTime := currentTime (model w) in
        let duration := duration (model w) in
        let w := with_listening true w in
        let w := registerRpcMethod PAUSE_STREAM_METHOD (PauseHandler isPlaying) w in
        let w := registerRpcMethod SEEK_STREAM_METHOD (SeekHandler currentTime duration) w in
        with_model
          (setPlaybackRate (el_playbackRate el)
             (setVolume (el_volume el)
                (setIsPlaying (negb (paused el))
                   (setDuration (el_duration el)
                      (setCurrentTime (el_currentTime el) (model w)))))) w
      else unregisterRpcMethod SEEK_STREAM_METHOD (unregisterRpcMethod PAUSE_STREAM_METHOD w)
  | None => unregisterRpcMethod SEEK_STREAM_METHOD (unregisterRpcMethod PAUSE_STREAM_METHOD w)
  end.

(** The effect's cleanup removes the listeners only. *)
Definition cleanup (w : World) : World := with_listening false w.

(** The element changed to [el] and fired an event. *)
Inductive MediaEvent : Type :=
  | timeupdate
  | durationchange
  | play
  | pause
  | ended.

Definition dispatch (ev : MediaEvent) (el : HTMLVideoElement) (w : World) : World :=
  let w := with_element (Some el) w in
  if listening w then
    match ev with
    | timeupdate => with_model (setCurrentTime (el_currentTime el) (model w)) w
    | durationchange => with_model (setDuration (el_duration el) (model w)) w
    | play | pause | ended => with_model (setIsPlaying (negb (paused el)) (model w)) w
    end
  else w.

(** [handleSeek] *)
Definition handleSeek (time : number) (w : World) : World :=
  match videoElement w with
  | None => w
  | Some el =>
      let el := mkVideo (paused el) (muted el) time (el_duration el) (el_volume el)
                  (el_playbackRate el) in
      with_model (setCurrentTime time (model w)) (with_element (Some el) w)
  end.

(** The element fires a run of events, each with the state it is in. *)
Definition dispatch_all (evs : list (MediaEvent * HTMLVideoElement)) (w : World) : World :=
  foldl (fun w ev => dispatch (fst ev) (snd ev) w) w evs.

End VideoControls.

(** ** Media objects and the session's publishing capability *)

Inductive Kind : Type :=
  | audio
  | video.

Record MediaStreamTrack : Type := mkTrack {
  kind : Kind;
  track_id : string
}.

Record MediaStream : Type := mkStream {
  id : string;
  getTracks : list MediaStreamTrack
}.

Definition is_video (t : MediaStreamTrack) : bool :=
  match kind t with video => true | audio => false end.
Definition is_audio (t : MediaStreamTrack) : bool :=
  match kind t with audio => true | video => false end.

Definition getVideoTracks (s : MediaStream) : list MediaStreamTrack :=
  List.filter is_video (getTracks s).
Definition getAudioTracks (s : MediaStream) : list MediaStreamTrack :=
  List.filter is_audio (getTracks s).

(** [Track.Source] *)
Inductive Source : Type :=
  | Camera
  | Microphone
  | ScreenShare
  | ScreenShareAudio
  | Unknown.

(** The options object of a [publishTrack] call; an absent key is [None]. *)
Record TrackPublishOptions : Type := mkOptions {
  name : string;
  source : Source;
  simulcast : option bool;
  stream : option string
}.

(** A [LocalTrackPublication]; its [track] is optional in the client's
    types, and the hooks test it before they unpublish. *)
Record LocalTrackPublication : Type := mkPublication {
  track : option MediaStreamTrack;
  trackName : string;
  pub_source : Source
}.

(** What a call of a hook did to the outside, in the order it happened. *)
Inductive Event : Type :=
  | EvPlay (r : Settled)
  | EvPause
  | EvCaptureStream (frameRate : Z)
  | EvPublishTrack (t : MediaStreamTrack) (o : TrackPublishOptions) (r : Settled)
  | EvUnpublishTrack (t : MediaStreamTrack) (r : Settled)
  | EvTrackStop (t : MediaStreamTrack)
  | EvOnError (e : Error)
  | EvOnTrackPublished
  | EvOnTrackUnpublished.

(** The value or the exception of a call. *)
Inductive Result (A : Type) : Type :=
  | Returned (a : A)
  | Threw (err : Thrown).
Arguments Returned {A} a.
Arguments Threw {A} err.

(** The collaborators.  Each answer may depend on everything that was
    called before. *)
Record Env : Type := mkEnv {
  play_settles : list Event -> Settled;
  captureStream_returns : list Event -> Result MediaStream;
  publishTrack_settles : list Event -> MediaStreamTrack -> TrackPublishOptions -> Settled;
  unpublishTrack_settles : list Event -> MediaStreamTrack -> Settled
}.

(** The callbacks of [UseVideoFileShareOptions]: [true] when the caller
    supplied one.  A supplied callback is called, which the log records. *)
Record Callbacks : Type := mkCallbacks {
  onError : bool;
  onTrackPublished : bool;
  onTrackUnpublished : bool
}.

(** The state a hook call runs in: the hook's own state and refs, the
    element its [videoElement] variable points to, and the log. *)
Record World (H : Type) : Type := mkWorld {
  hook : H;
  videoElement : option HTMLVideoElement;
  log : list Event
}.
Arguments mkWorld {H} hook videoElement log.
Arguments hook {H} w.
Arguments videoElement {H} w.
Arguments log {H} w.

(** *** Async code with exceptions over a world *)

Definition M (H A : Type) : Type := World H -> Result A * World H.

Definition ret {H A} (a : A) : M H A := fun w => (Returned a, w).

Definition bind {H A B} (m : M H A) (k : A -> M H B) : M H B :=
  fun w =>
    match m w with
    | (Returned a, w') => k a w'
    | (Threw err, w') => (Threw err, w')
    end.

Notation "'let!' x ':=' m 'in' k" := (bind m (fun x => k))
  (at level 10, x name, k at level 200).
Notation "m >> k" := (bind m (fun _ => k))
  (at level 90, right associativity).

(** [try { body } catch (err) { handler } finally { final }] *)
Definition try_catch_finally {H} (body : M H unit) (handler : Thrown -> M H unit)
    (final : M H unit) : M H unit :=
  fun w =>
    match body w with
    | (Returned _, w1) => final w1
    | (Threw err, w1) =>
        match handler err w1 with
        | (Returned _, w2) => final w2
        | (Threw err', w2) =>
            match final w2 with
            | (Returned _, w3) => (Threw err', w3)
            | (Threw err'', w3) => (Threw err'', w3)
            end
        end
    end.

Definition get_hook {H} : M H H := fun w => (Returned (hook w), w).
Definition modify_hook {H} (f : H -> H) : M H unit :=
  fun w => (Returned tt, mkWorld (f (hook w)) (videoElement w) (log w)).
Definition get_element {H} : M H (option HTMLVideoElement) :=
  fun w => (Returned (videoElement w), w).
Definition set_element {H} (e : option HTMLVideoElement) : M H unit :=
  fun w => (Returned tt, mkWorld (hook w) e (log w)).
Definition emit {H} (ev : Event) : M H unit :=
  fun w => (Returned tt, mkWorld (hook w) (videoElement w) (log w ++ [ev])).

(** [callback?.()] *)
Definition call_optional {H} (given : bool) (ev : Event) : M H unit :=
  if given then emit ev else ret tt.

(** [for (const x of xs) { body }] *)
Fixpoint for_of {H A} (xs : list A) (body : A -> M H unit) : M H unit :=
  match xs with
  | [] => ret tt
  | x :: xs' => body x >> for_of xs' body
  end.

Section Collaborators.
Context {H : Type} (env : Env).

(** [await room.localParticipant.publishTrack(t, o)] *)
Definition publishTrack (t : MediaStreamTrack) (o : TrackPublishOptions)
    : M H LocalTrackPublication :=
  fun w =>
    let r := publishTrack_settles env (log w) t o in
    let w' := mkWorld (hook w) (videoElement w) (log w ++ [EvPublishTrack t o r]) in
    match r with
    | Resolved => (Returned (mkPublication (Some t) (name o) (source o)), w')
    | Rejected err => (Threw err, w')
    end.

(** [await room.localParticipant.unpublishTrack(t)] *)
Definition unpublishTrack (t : MediaStreamTrack) : M H unit :=
  fun w =>
    let r := unpublishTrack_settles env (log w) t in
    let w' := mkWorld (hook w) (videoElement w) (log w ++ [EvUnpublishTrack t r]) in
    match r with
    | Resolved => (Returned tt, w')
    | Rejected err => (Threw err, w')
    end.

(** [await videoElement.play()] on the element [el] *)
Definition play (el : HTMLVideoElement) : M H unit :=
  fun w =>
    let r := play_settles env (log w) in
    match r with
    | Resolved =>
        (Returned tt,
         mkWorld (hook w)
           (Some (mkVideo false (muted el) (el_currentTime el) (el_duration el)
                    (el_volume el) (el_playbackRate el)))
           (log w ++ [EvPlay r]))
    | Rejected err =>
        (Threw err, mkWorld (hook w) (videoElement w) (log w ++ [EvPlay r]))
    end.

(** [videoElement.captureStream(frameRate)] *)
Definition captureStream (frameRate : Z) : M H MediaStream :=
  fun w =>
    (captureStream_returns env (log w),
     mkWorld (hook w) (videoElement w) (log w ++ [EvCaptureStream frameRate])).

End Collaborators.

(** [videoElement.pause()] on the element [el] *)
Definition paused_element (el : HTMLVideoElement) : HTMLVideoElement :=
  mkVideo true (muted el) (el_currentTime el) (el_duration el) (el_volume el)
    (el_playbackRate el).

Definition pause {H} (el : HTMLVideoElement) : M H unit :=
  fun w =>
    (Returned tt, mkWorld (hook w) (Some (paused_element el)) (log w ++ [EvPause])).

(** [videoElement.muted = false; videoElement.volume = 1.0] *)
Definition unmute_full_volume {H} (el : HTMLVideoElement) : M H HTMLVideoElement :=
  let el' := mkVideo (paused el) false (el_currentTime el) (el_duration el) (Num 1)
               (el_playbackRate el) in
  set_element (Some el') >> ret el'.

(** The events of [l'] that were not yet in [l]. *)
Definition new_events (l l' : list Event) : list Event := drop (length l) l'.

Definition is_publish (ev : Event) : bool :=
  match ev with EvPublishTrack _ _ _ => true | _ => false end.
Definition is_unpublish (ev : Event) : bool :=
  match ev with EvUnpublishTrack _ _ => true | _ => false end.
Definition is_onError (ev : Event) : bool :=
  match ev with EvOnError _ => true | _ => false end.
Definition is_track_stop (ev : Event) : bool :=
  match ev with EvTrackStop _ => true | _ => false end.

(** The exceptions of the publish calls that were rejected. *)
Definition rejected_publishes (l : list Event) : list Thrown :=
  omap (fun ev => match ev with EvPublishTrack _ _ (Rejected err) => Some err | _ => None end) l.
Arguments rejected_publishes : simpl never.

(** ** The engine: [useVideoFileShare] with one handle per audio track

    The hook of [unnamed/part_001]: it is given the element in its options
    and keeps the audio handles in the array [audioTracksRef]. *)

Module FileShare.

Record Hook : Type := mkHook {
  isSharing : bool;
  isLoading : bool;
  error : option Error;
  videoTrackRef : option LocalTrackPublication;
  audioTracksRef : option (list LocalTrackPublication);
  streamRef : option MediaStream
}.

Definition initial : Hook := mkHook false false None None None None.

Definition setIsSharing (v : bool) (h : Hook) : Hook :=
  mkHook v (isLoading h) (error h) (videoTrackRef h) (audioTracksRef h) (streamRef h).
Definition setIsLoading (v : bool) (h : Hook) : Hook :=
  mkHook (isSharing h) v (error h) (videoTrackRef h) (audioTracksRef h) (streamRef h).
Definition setError (v : option Error) (h : Hook) : Hook :=
  mkHook (isSharing h) (isLoading h) v (videoTrackRef h) (audioTracksRef h) (streamRef h).
Definition set_videoTrackRef (v : option LocalTrackPublication) (h : Hook) : Hook :=
  mkHook (isSharing h) (isLoading h) (error h) v (audioTracksRef h) (streamRef h).
Definition set_audioTracksRef (v : option (list LocalTrackPublication)) (h : Hook) : Hook :=
  mkHook (isSharing h) (isLoading h) (error h) (videoTrackRef h) v (streamRef h).
Definition set_streamRef (v : option MediaStream) (h : Hook) : Hook :=
  mkHook (isSharing h) (isLoading h) (error h) (videoTrackRef h) (audioTracksRef h) v.

(** [audioTracksRef.current?.push(p)] *)
Definition push_audioTrack (p : LocalTrackPublication) (h : Hook) : Hook :=
  match audioTracksRef h with
  | Some ps => set_audioTracksRef (Some (ps ++ [p])) h
  | None => h
  end.

Section Calls.
Context (env : Env) (options : Callbacks).

(** The [try] block, the [catch] clause and the whole of
    [stopSharing]. *)
Definition stopSharing_try : M Hook unit :=
  modify_hook (setIsLoading true) >>
  (let! h := get_hook in
   match videoTrackRef h with
   | Some p =>
       match track p with
       | Some t => unpublishTrack env t >> modify_hook (set_videoTrackRef None)
       | None => ret tt
       end
   | None => ret tt
   end) >>
  (let! h := get_hook in
   match audioTracksRef h with
   | Some ps =>
       for_of ps (fun audioTrackRef =>
         match track audioTrackRef with
         | Some t => unpublishTrack env t
         | None => ret tt
         end) >>
       modify_hook (set_audioTracksRef None)
   | None => ret tt
   end) >>
  (let! h := get_hook in
   match streamRef h with
   | Some s =>
       for_of (getTracks s) (fun t => emit (EvTrackStop t)) >>
       modify_hook (set_streamRef None)
   | None => ret tt
   end) >>
  modify_hook (setIsSharing false) >>
  call_optional (onTrackUnpublished options) EvOnTrackUnpublished >>
  (let! el := get_element in
   match el with
   | Some el => pause el
   | None => ret tt
   end).

Definition stopSharing_catch (err : Thrown) : M Hook unit :=
  let error := as_Error err "Failed to stop sharing" in
  modify_hook (setError (Some error)) >>
  call_optional (onError options) (EvOnError error).

Definition stopSharing : M Hook unit :=
  try_catch_finally stopSharing_try stopSharing_catch
    (modify_hook (setIsLoading false)).

Definition video_options (s : MediaStream) : TrackPublishOptions :=
  mkOptions "shared-video-file" ScreenShare (Some false) (Some (id s)).
Definition audio_options (s : MediaStream) : TrackPublishOptions :=
  mkOptions "shared-video-audio" Unknown None (Some (id s)).

(** The [try] block of [startSharing], entered with the element
    [el]. *)
Definition startSharing_try (el : HTMLVideoElement) : M Hook unit :=
  modify_hook (setIsLoading true) >>
  modify_hook (setError None) >>
  (let! el := unmute_full_volume el in
   if paused el then play env el else ret tt) >>
  let! stream := captureStream env 30 in
  modify_hook (set_streamRef (Some stream)) >>
  (match getVideoTracks stream with
   | t :: _ =>
       let! videoTrack := publishTrack env t (video_options stream) in
       modify_hook (set_videoTrackRef (Some videoTrack))
   | [] => ret tt
   end) >>
  (match getAudioTracks stream with
   | _ :: _ =>
       modify_hook (set_audioTracksRef (Some [])) >>
       for_of (getAudioTracks stream) (fun rawAudioTrack =>
         let! audioTrack := publishTrack env rawAudioTrack (audio_options stream) in
         modify_hook (push_audioTrack audioTrack))
   | [] => ret tt
   end) >>
  modify_hook (setIsSharing true) >>
  call_optional (onTrackPublished options) EvOnTrackPublished.

Definition startSharing_catch (err : Thrown) : M Hook unit :=
  let error := as_Error err "Failed to start sharing" in
  modify_hook (setError (Some error)) >>
  call_optional (onError options) (EvOnError error) >>
  stopSharing.

Definition startSharing : M Hook unit :=
  let! el := get_element in
  match el with
  | None =>
      let err := mkError "Video element not ready" in
      modify_hook (setError (Some err)) >>
      call_optional (onError options) (EvOnError err)
  | Some el =>
      let! h := get_hook in
      if isSharing h then ret tt
      else
        try_catch_finally (startSharing_try el) startSharing_catch
          (modify_hook (setIsLoading false))
  end.

End Calls.

(** No publication handle and no stream is retained. *)
Definition idle (h : Hook) : bool :=
  match videoTrackRef h, audioTracksRef h, streamRef h with
  | None, None, None => true
  | None, Some [], None => true
  | _, _, _ => false
  end.

Definition has_track (p : LocalTrackPublication) : bool :=
  match track p with Some _ => true | None => false end.

(** Every retained handle still carries the track it was published for,
    as the handles that [publishTrack] returns do. *)
Definition handles_tracked (h : Hook) : bool :=
  match videoTrackRef h with Some p => has_track p | None => true end
  && match audioTracksRef h with Some ps => forallb has_track ps | None => true end.

(** The retained handles in the order [stopSharing] visits them. *)
Definition retained_handles (h : Hook) : list LocalTrackPublication :=
  match videoTrackRef h with Some p => [p] | None => [] end
  ++ match audioTracksRef h with Some ps => ps | None => [] end.

(** The track of the first [unpublishTrack] call of [stopSharing]. *)
Definition first_unpublished (h : Hook) : option MediaStreamTrack :=
  head (omap track (retained_handles h)).

(** What a [stopSharing] without failure does to the outside: it
    unpublishes the retained handles that carry a track, stops the tracks
    of the retained stream, notifies and pauses the element. *)
Definition stop_events (options : Callbacks) (w : World Hook) : list Event :=
  map (fun t => EvUnpublishTrack t Resolved) (omap track (retained_handles (hook w)))
  ++ map EvTrackStop (match streamRef (hook w) with Some s => getTracks s | None => [] end)
  ++ (if onTrackUnpublished options then [EvOnTrackUnpublished] else [])
  ++ match videoElement w with Some _ => [EvPause] | None => [] end.

(** The publish calls the specification asks of a start on stream [s]. *)
Definition expected_publishes (s : MediaStream) : list Event :=
  match getVideoTracks s with
  | t :: _ =>
      [EvPublishTrack t (mkOptions "shared-video-file" ScreenShare (Some false) (Some (id s)))
         Resolved]
  | [] => []
  end
  ++ map (fun t =>
            EvPublishTrack t (mkOptions "shared-video-audio" Unknown None (Some (id s)))
              Resolved)
       (getAudioTracks s).

End FileShare.

(** ** The engine: [useVideoFileShare] with a single audio handle

    The hook of [unnamed/part_005]: it owns the element ([setVideoElement])
    and publishes the first audio track only, into [audioTrackRef]. *)

Module FileShareSingle.

Record Hook : Type := mkHook {
  isSharing : bool;
  isLoading : bool;
  error : option Error;
  videoTrackRef : option LocalTrackPublication;
  audioTrackRef : option LocalTrackPublication;
  streamRef : option MediaStream
}.

Definition initial : Hook := mkHook false false None None None None.

Definition setIsSharing (v : bool) (h : Hook) : Hook :=
  mkHook v (isLoading h) (error h) (videoTrackRef h) (audioTrackRef h) (streamRef h).
Definition setIsLoading (v : bool) (h : Hook) : Hook :=
  mkHook (isSharing h) v (error h) (videoTrackRef h) (audioTrackRef h) (streamRef h).
Definition setError (v : option Error) (h : Hook) : Hook :=
  mkHook (isSharing h) (isLoading h) v (videoTrackRef h) (audioTrackRef h) (streamRef h).
Definition set_videoTrackRef (v : option LocalTrackPublication) (h : Hook) : Hook :=
  mkHook (isSharing h) (isLoading h) (error h) v (audioTrackRef h) (streamRef h).
Definition set_audioTrackRef (v : option LocalTrackPublication) (h : Hook) : Hook :=
  mkHook (isSharing h) (isLoading h) (error h) (videoTrackRef h) v (streamRef h).
Definition set_streamRef (v : option MediaStream) (h : Hook) : Hook :=
  mkHook (isSharing h) (isLoading h) (error h) (videoTrackRef h) (audioTrackRef h) v.

(** [setVideoElement]: the element is state of this hook. *)
Definition setVideoElement (e : option HTMLVideoElement) : M Hook unit := set_element e.

Section Calls.
Context (env : Env) (options : Callbacks).

(** The [try] block, the [catch] clause and the whole of
    [stopSharing]. *)
Definition stopSharing_try : M Hook unit :=
  modify_hook (setIsLoading true) >>
  (let! h := get_hook in
   match videoTrackRef h with
   | Some p =>
       match track p with
       | Some t => unpublishTrack env t >> modify_hook (set_videoTrackRef None)
       | None => ret tt
       end
   | None => ret tt
   end) >>
  (let! h := get_hook in
   match audioTrackRef h with
   | Some p =>
       match track p with
       | Some t => unpublishTrack env t >> modify_hook (set_audioTrackRef None)
       | None => ret tt
       end
   | None => ret tt
   end) >>
  (let! h := get_hook in
   match streamRef h with
   | Some s =>
       for_of (getTracks s) (fun t => emit (EvTrackStop t)) >>
       modify_hook (set_streamRef None)
   | None => ret tt
   end) >>
  modify_hook (setIsSharing false) >>
  call_optional (onTrackUnpublished options) EvOnTrackUnpublished >>
  (let! el := get_element in
   match el with
   | Some el => pause el
   | None => ret tt
   end).

Definition stopSharing_catch (err : Thrown) : M Hook unit :=
  let error := as_Error err "Failed to stop sharing" in
  modify_hook (setError (Some error)) >>
  call_optional (onError options) (EvOnError error).

Definition stopSharing : M Hook unit :=
  try_catch_finally stopSharing_try stopSharing_catch
    (modify_hook (setIsLoading false)).

Definition video_options : TrackPublishOptions :=
  mkOptions "shared-video-file" ScreenShare (Some false) None.
Definition audio_options : TrackPublishOptions :=
  mkOptions "shared-video-audio" Unknown None None.

(** The [try] block of [startSharing], entered with the element
    [el]. *)
Definition startSharing_try (el : HTMLVideoElement) : M Hook unit :=
  modify_hook (setIsLoading true) >>
  modify_hook (setError None) >>
  (let! el := unmute_full_volume el in
   if paused el then play env el else ret tt) >>
  let! stream := captureStream env 30 in
  modify_hook (set_streamRef (Some stream)) >>
  (match getVideoTracks stream with
   | t :: _ =>
       let! videoTrack := publishTrack env t video_options in
       modify_hook (set_videoTrackRef (Some videoTrack))
   | [] => ret tt
   end) >>
  (match getAudioTracks stream with
   | t :: _ =>
       let! audioTrack := publishTrack env t audio_options in
       modify_hook (set_audioTrackRef (Some audioTrack))
   | [] => ret tt
   end) >>
  modify_hook (setIsSharing true) >>
  call_optional (onTrackPublished options) EvOnTrackPublished.

Definition startSharing_catch (err : Thrown) : M Hook unit :=
  let error := as_Error err "Failed to start sharing" in
  modify_hook (setError (Some error)) >>
  call_optional (onError options) (EvOnError error) >>
  stopSharing.

Definition startSharing : M Hook unit :=
  let! el := get_element in
  match el with
  | None =>
      let err := mkError "Video element not ready" in
      modify_hook (setError (Some err)) >>
      call_optional (onError options) (EvOnError err)
  | Some el =>
      let! h := get_hook in
      if isSharing h then ret tt
      else
        try_catch_finally (startSharing_try el) startSharing_catch
          (modify_hook (setIsLoading false))
  end.

End Calls.

Definition idle (h : Hook) : bool :=
  match videoTrackRef h, audioTrackRef h, streamRef h with
  | None, None, None => true
  | _, _, _ => false
  end.

Definition retained_handles (h : Hook) : list LocalTrackPublication :=
  match videoTrackRef h with Some p => [p] | None => [] end
  ++ match audioTrackRef h with Some p => [p] | None => [] end.

Definition first_unpublished (h : Hook) : option MediaStreamTrack :=
  head (omap track (retained_handles h)).

End FileShareSingle.

(** ** Caller discipline of the coordinator

    The states reached when the context value is used the way the share
    tabs use it: a mode is declared together with its stop handler, both
    are withdrawn together, and [stop] is called on a handler that withdraws
    its own registration (as the screen-share handler does through
    [onChange]). *)

Inductive UseShare_paired : UseShare.State -> Prop :=
  | UseShare_paired_initial :
      UseShare_paired UseShare.initial
  | UseShare_paired_panel s o :
      UseShare_paired s ->
      o = UseShare.OpOpen \/ o = UseShare.OpClose \/ o = UseShare.OpToggle ->
      UseShare_paired (UseShare.run_op o s)
  | UseShare_paired_start s type fn :
      UseShare_paired s ->
      UseShare_paired
        (UseShare.setStopHandler (Some fn) (UseShare.setSharing true (Some type) s))
  | UseShare_paired_end s :
      UseShare_paired s ->
      UseShare_paired (UseShare.setStopHandler None (UseShare.setSharing false None s))
  | UseShare_paired_stop s calls settles :
      UseShare_paired s ->
      UseShare.stopHandlerRef s = Some (UseShare.mkStopHandler calls settles) ->
      UseShare.ref_after_calls calls (UseShare.stopHandlerRef s) = None ->
      UseShare_paired (snd (UseShare.stop s)).

Inductive ShareControls_paired : ShareControls.State -> Prop :=
  | ShareControls_paired_initial :
      ShareControls_paired ShareControls.initial
  | ShareControls_paired_panel s o :
      ShareControls_paired s ->
      o = ShareControls.OpOpen \/ o = ShareControls.OpClose \/ o = ShareControls.OpToggle ->
      ShareControls_paired (ShareControls.run_op o s)
  | ShareControls_paired_start s type fn :
      ShareControls_paired s ->
      ShareControls_paired
        (ShareControls.setStopHandler (Some fn) (ShareControls.setSharing (Some type) s))
  | ShareControls_paired_end s :
      ShareControls_paired s ->
      ShareControls_paired (ShareControls.setStopHandler None (ShareControls.setSharing None s))
  | ShareControls_paired_stop s calls settles :
      ShareControls_paired s ->
      ShareControls.stopHandlerRef s = Some (ShareControls.mkStopHandler calls settles) ->
      ShareControls.ref_after_calls calls (ShareControls.stopHandlerRef s) = None ->
      ShareControls_paired (snd (ShareControls.stop s)).

(** The invariant of the specification's [ShareState]. *)
Definition UseShare_handler_iff_active (s : UseShare.State) : Prop :=
  UseShare.stopHandlerRef s <> None <-> UseShare.activeType s <> None.
Definition ShareControls_handler_iff_active (s : ShareControls.State) : Prop :=
  ShareControls.stopHandlerRef s <> None <-> ShareControls.activeType s <> None.


(** ** Reasoning about hook calls *)

(** A property of the hook state that a computation keeps. *)
Definition frames {H A} (P : H -> Prop) (m : M H A) : Prop :=
  forall w, P (hook w) -> P (hook (snd (m w))).

(** Run the straight-line part of a hook call on a world given by its
    fields. *)
Ltac run :=
  cbv beta iota zeta delta
    [bind ret get_hook modify_hook get_element set_element emit call_optional pause
     unpublishTrack publishTrack captureStream play unmute_full_volume try_catch_finally
     hook videoElement log fst snd paused muted el_currentTime el_duration el_volume
     el_playbackRate
     FileShare.isSharing FileShare.isLoading FileShare.error FileShare.videoTrackRef
     FileShare.audioTracksRef FileShare.streamRef FileShare.setIsSharing
     FileShare.setIsLoading FileShare.setError FileShare.set_videoTrackRef
     FileShare.set_audioTracksRef FileShare.set_streamRef FileShare.push_audioTrack
     FileShare.stopSharing_catch FileShare.startSharing_catch
     FileShareSingle.isSharing FileShareSingle.isLoading FileShareSingle.error
     FileShareSingle.videoTrackRef FileShareSingle.audioTrackRef FileShareSingle.streamRef
     FileShareSingle.setIsSharing FileShareSingle.setIsLoading FileShareSingle.setError
     FileShareSingle.set_videoTrackRef FileShareSingle.set_audioTrackRef
     FileShareSingle.set_streamRef FileShareSingle.stopSharing_catch
     FileShareSingle.startSharing_catch].
Ltac run_in H :=
  cbv beta iota zeta delta
    [bind ret get_hook modify_hook get_element set_element emit call_optional pause
     unpublishTrack publishTrack captureStream play unmute_full_volume try_catch_finally
     hook videoElement log fst snd paused muted el_currentTime el_duration el_volume
     el_playbackRate
     FileShare.isSharing FileShare.isLoading FileShare.error FileShare.videoTrackRef
     FileShare.audioTracksRef FileShare.streamRef FileShare.setIsSharing
     FileShare.setIsLoading FileShare.setError FileShare.set_videoTrackRef
     FileShare.set_audioTracksRef FileShare.set_streamRef FileShare.push_audioTrack
     FileShare.stopSharing_catch FileShare.startSharing_catch
     FileShareSingle.isSharing FileShareSingle.isLoading FileShareSingle.error
     FileShareSingle.videoTrackRef FileShareSingle.audioTrackRef FileShareSingle.streamRef
     FileShareSingle.setIsSharing FileShareSingle.setIsLoading FileShareSingle.setError
     FileShareSingle.set_videoTrackRef FileShareSingle.set_audioTrackRef
     FileShareSingle.set_streamRef FileShareSingle.stopSharing_catch
     FileShareSingle.startSharing_catch] in H.


(** ** Observations on the log *)

(** The calls a teardown may make: unpublish, stop a track, report, notify
    and pause. *)
Definition teardown_event (ev : Event) : bool :=
  match ev with
  | EvUnpublishTrack _ _ | EvTrackStop _ | EvOnError _ | EvOnTrackUnpublished | EvPause => true
  | _ => false
  end.

(** The exceptions of the unpublish calls that were rejected. *)
Definition rejected_unpublishes (l : list Event) : list Thrown :=
  omap (fun ev => match ev with EvUnpublishTrack _ (Rejected err) => Some err | _ => None end) l.
Arguments rejected_unpublishes : simpl never.

(** The errors handed to [onError], oldest first. *)
Definition reported_errors (l : list Event) : list Error :=
  omap (fun ev => match ev with EvOnError e => Some e | _ => None end) l.
Arguments reported_errors : simpl never.

(** The tracks handed to [unpublishTrack], oldest first. *)
Definition unpublished_tracks (l : list Event) : list MediaStreamTrack :=
  omap (fun ev => match ev with EvUnpublishTrack t _ => Some t | _ => None end) l.
Arguments unpublished_tracks : simpl never.

(** The tracks that were stopped, oldest first. *)
Definition stopped_tracks (l : list Event) : list MediaStreamTrack :=
  omap (fun ev => match ev with EvTrackStop t => Some t | _ => None end) l.
Arguments stopped_tracks : simpl never.

(** The handle [publishTrack] resolves to. *)
Definition publication_of (o : TrackPublishOptions) (t : MediaStreamTrack)
    : LocalTrackPublication :=
  mkPublication (Some t) (name o) (source o).

(** The element once [startSharing] made it audible; [p] is its [paused]
    flag. *)
Definition audible_element (p : bool) (el : HTMLVideoElement) : HTMLVideoElement :=
  mkVideo p false (el_currentTime el) (el_duration el) (Num 1) (el_playbackRate el).

(** What a [startSharing] without failure does to the outside on stream
    [s], from an element that was paused or not. *)
Definition start_events (options : Callbacks) (was_paused : bool) (s : MediaStream)
    : list Event :=
  (if was_paused then [EvPlay Resolved] else [])
  ++ [EvCaptureStream 30]
  ++ FileShare.expected_publishes s
  ++ (if onTrackPublished options then [EvOnTrackPublished] else []).

(** The states of the engine that calls can produce: from the hook's
    initial state, any number of [startSharing] and [stopSharing] calls
    against any room and with any callbacks, while the caller may bind
    another element (or none) between two calls. *)
Inductive FileShare_reachable : World FileShare.Hook -> Prop :=
  | FileShare_reachable_initial el :
      FileShare_reachable (mkWorld FileShare.initial el [])
  | FileShare_reachable_start env options w :
      FileShare_reachable w ->
      FileShare_reachable (snd (FileShare.startSharing env options w))
  | FileShare_reachable_stop env options w :
      FileShare_reachable w ->
      FileShare_reachable (snd (FileShare.stopSharing env options w))
  | FileShare_reachable_bind el w :
      FileShare_reachable w ->
      FileShare_reachable (mkWorld (hook w) el (log w)).

(** The tracks whose publish call resolved, oldest first. *)
Definition published_tracks (l : list Event) : list MediaStreamTrack :=
  omap (fun ev => match ev with EvPublishTrack t _ Resolved => Some t | _ => None end) l.
Arguments published_tracks : simpl never.

(** [startSharing] goes past its two guards. *)
Definition start_proceeds (w : World FileShare.Hook) : bool :=
  match videoElement w with
  | Some _ => negb (FileShare.isSharing (hook w))
  | None => false
  end.

(** ** The share button

    [handleClick] of [ShareToggle.tsx] (lines 18-31), on the context value
    of [useShare.ts].  It first calls the consumer's [onClick] prop, if one
    was passed; a prop that throws makes the [async] handler reject there,
    before anything else ran.  Otherwise it stops the running share, or else
    closes the open panel, or else opens it.  The prop is the consumer's
    code: it is taken not to call the share context itself, and
    [stopPropagation] does not touch the context value. *)




(** A handler call that selects a file or binds an element. *)
Definition ShareVideo_is_file_call (c : ShareVideo.Call) : bool :=
  match c with
  | ShareVideo.CallSetSelectedFile _ | ShareVideo.CallSetVideoElement _ => true
  | _ => false
  end.

(** ** The hidden player of [unnamed/part_002] *)

Module VideoFilePlayer.

(** [MediaError.code] *)
Definition MEDIA_ERR_ABORTED : Z := 1.
Definition MEDIA_ERR_NETWORK : Z := 2.
Definition MEDIA_ERR_DECODE : Z := 3.
Definition MEDIA_ERR_SRC_NOT_SUPPORTED : Z := 4.

(** The message [handleError] (lines 46-71) builds from [video.error]:
    [None] when the element has no error object, else its code. *)
Definition errorMessage (error : option Z) : string :=
  match error with
  | Some code =>
      if (code =? MEDIA_ERR_ABORTED)%Z then "Video loading was aborted"
      else if (code =? MEDIA_ERR_NETWORK)%Z then "Network error while loading video"
      else if (code =? MEDIA_ERR_DECODE)%Z then "Video decoding failed"
      else if (code =? MEDIA_ERR_SRC_NOT_SUPPORTED)%Z then "Video format not supported"
      else "Failed to load video file"
  | None => "Failed to load video file"
  end.

(** [handleError]: the error handed to [onError], if the ref holds the
    element and the callback was supplied. *)
Definition handleError (mounted onError_given : bool) (error : option Z) : option Error :=
  if mounted then
    if onError_given then Some (mkError (errorMessage error)) else None
  else None.

(** The mounted player: the element's [src], the object URLs that were
    created and not revoked, the next URL [URL.createObjectURL] will hand
    out, the URL the pending effect cleanup holds, and the number of [load()]
    calls. *)
Record Player : Type := mkPlayer {
  src : option nat;
  live_urls : gset nat;
  next_url : nat;
  cleanup_url : option nat;
  loads : nat
}.

Definition mounted : Player := mkPlayer None ∅ 0 None 0.

(** The file effect (lines 28-44), run with the [file] prop. *)
Definition load_effect (file : option File) (p : Player) : Player :=
  match file with
  | None => mkPlayer (src p) (live_urls p) (next_url p) None (loads p)
  | Some _ =>
      let objectUrl := next_url p in
      mkPlayer (Some objectUrl) ({[objectUrl]} ∪ live_urls p) (S objectUrl)
        (Some objectUrl) (S (loads p))
  end.

(** The cleanup the effect returned, if it returned one:
    [URL.revokeObjectURL(objectUrl); video.src = ''] *)
Definition run_cleanup (p : Player) : Player :=
  match cleanup_url p with
  | Some objectUrl =>
      mkPlayer None (live_urls p ∖ {[objectUrl]}) (next_url p) None (loads p)
  | None => p
  end.

(** The [file] prop changes: the previous cleanup runs, then the effect. *)
Definition set_file (file : option File) (p : Player) : Player :=
  load_effect file (run_cleanup p).

(** The component unmounts. *)
Definition unmount (p : Player) : Player := run_cleanup p.

(** The mounted player after its [file] prop took the values [files], one
    after the other. *)
Definition run_files (files : list (option File)) : Player :=
  foldl (fun p file => set_file file p) mounted files.

End VideoFilePlayer.

(** ** The time display of [VideoFileControls]

    [formatTime] of [VideoFileShareToggle.tsx] (lines 108-113). *)

(** [s.padStart(2, '0')] *)
Definition padStart2 (s : string) : string :=
  match String.length s with
  | 0 => "00"
  | 1 => "0" +:+ s
  | _ => s
  end.

(** [Number.MAX_SAFE_INTEGER], 2^53 - 1. *)
Definition MAX_SAFE_INTEGER : Z := 9007199254740991.

(** [isFinite] fails on [NaN]; [Math.floor(seconds / 60)] is the floor
    quotient and [seconds % 60] the remainder that has the sign of
    [seconds].  The source computes on doubles.  On a whole number of
    seconds of magnitude at most [MAX_SAFE_INTEGER] this integer arithmetic
    is what the doubles give: the quotient by 60 stays below 2^48, where a
    double is closer to the exact quotient than 1/60, so flooring it gives
    the integer quotient; the remainder is exact; and [toString] prints
    every digit.  Beyond that range the source rounds, and nothing is
    stated here about it. *)
Definition formatTime (seconds : number) : string :=
  match seconds with
  | NaN => "00:00"
  | Num z =>
      let mins := (z / 60)%Z in
      let secs := Z.rem z 60 in
      padStart2 (pretty mins) +:+ ":" +:+ padStart2 (pretty secs)
  end.
(** ** Example inputs *)

(** A handler that rejects without touching the context value. *)
Definition ex_failing_handler : UseShare.StopHandler :=
  UseShare.mkStopHandler [] (Rejected ThrownOther).

(** The video tab shares a file and registered that handler. *)
Definition ex_sharing_video : UseShare.State :=
  UseShare.mkState false true (Some VIDEO) (Some ex_failing_handler).

(** The screen tab's handler, [() => toggle(false)], which ends in
    [onChange(false)]. *)
Definition ex_screen_handler : UseShare.StopHandler :=
  UseShare.mkStopHandler
    [UseShare.CallSetSharing false None; UseShare.CallSetStopHandler None] Resolved.

Definition ex_screen_started : UseShare.State :=
  UseShare.setStopHandler (Some ex_screen_handler)
    (UseShare.setSharing true (Some SCREEN) UseShare.initial).

Definition ex_video_started : ShareControls.State :=
  ShareControls.setStopHandler (Some (ShareControls.mkStopHandler [] Resolved))
    (ShareControls.setSharing (Some VIDEO) ShareControls.initial).

(** The element at rest after loading a one-minute file, and the same
    element playing at second 50. *)
Definition ex_loaded_element : HTMLVideoElement :=
  mkVideo true false (Num 0) (Num 60) (Num 1) (Num 1).
Definition ex_playing_element : HTMLVideoElement :=
  mkVideo false false (Num 50) (Num 60) (Num 1) (Num 1).

(** First render with the element bound and video sharing active: the
    effect registers the two methods from the hook's initial state. *)
Definition ex_registered : VideoControls.World :=
  VideoControls.effect true
    (VideoControls.mkWorld VideoControls.initial_model (Some ex_loaded_element) ∅ false).

(** The sharer's element then starts playing and reaches second 50. *)
Definition ex_playing : VideoControls.World :=
  VideoControls.dispatch VideoControls.timeupdate ex_playing_element
    (VideoControls.dispatch VideoControls.play ex_playing_element ex_registered).

(** Files offered to the file inputs. *)
Definition ex_png : File := mkFile "shot.png" "image/png" 2048.
Definition ex_bare_video : File := mkFile "clip" "video" 4096.
Definition ex_mp4 : File := mkFile "clip.mp4" "video/mp4" 12582912.

(** Collaborators that never fail, on a stream with one video and two
    audio tracks; the caller supplied every callback. *)
Definition ex_video_track : MediaStreamTrack := mkTrack video "v0".
Definition ex_audio_track : MediaStreamTrack := mkTrack audio "a0".
Definition ex_audio_track' : MediaStreamTrack := mkTrack audio "a1".
Definition ex_stream : MediaStream :=
  mkStream "stream-1" [ex_video_track; ex_audio_track; ex_audio_track'].

Definition ex_env_ok : Env :=
  mkEnv (fun _ => Resolved) (fun _ => Returned ex_stream)
    (fun _ _ _ => Resolved) (fun _ _ => Resolved).

Definition ex_callbacks : Callbacks := mkCallbacks true true true.

Definition ex_idle : World FileShare.Hook :=
  mkWorld FileShare.initial (Some ex_loaded_element) [].
Definition ex_idle_single : World FileShareSingle.Hook :=
  mkWorld FileShareSingle.initial (Some ex_loaded_element) [].

(** The room refuses every unpublish (the connection was lost). *)
Definition ex_disconnected : Thrown := ThrownError (mkError "engine not connected").
Definition ex_env_unpublish_fails : Env :=
  mkEnv (fun _ => Resolved) (fun _ => Returned ex_stream)
    (fun _ _ _ => Resolved) (fun _ _ => Rejected ex_disconnected).

(** The engines after a successful start. *)
Definition ex_sharing : World FileShare.Hook :=
  snd (FileShare.startSharing ex_env_ok ex_callbacks ex_idle).
Definition ex_sharing_single : World FileShareSingle.Hook :=
  snd (FileShareSingle.startSharing ex_env_ok ex_callbacks ex_idle_single).

(** The room goes away while a start is under way: the video track is
    published, then every call is rejected. *)
Definition ex_env_room_lost : Env :=
  mkEnv (fun _ => Resolved) (fun _ => Returned ex_stream)
    (fun _ t _ => if is_video t then Resolved else Rejected ex_disconnected)
    (fun _ _ => Rejected ex_disconnected).


(** A start on each of these rooms. *)
Definition ex_failed_start : World FileShare.Hook :=
  snd (FileShare.startSharing ex_env_room_lost ex_callbacks ex_idle).



(** The engines before any element is bound. *)
Definition ex_unbound : World FileShare.Hook := mkWorld FileShare.initial None [].
Definition ex_unbound_single : World FileShareSingle.Hook :=
  mkWorld FileShareSingle.initial None [].


(** The provider while a video file is shared with a handler that itself
    selects another file, and while the screen is shared with a file
    selected. *)
Definition ex_video_file_shared : ShareVideo.State :=
  ShareVideo.mkState false true (Some VIDEO)
    (Some (ShareVideo.mkStopHandler [ShareVideo.CallSetSelectedFile (Some ex_png)]
             (Rejected ThrownOther)))
    (Some ex_mp4) (Some ex_playing_element).
Definition ex_screen_shared_with_file : ShareVideo.State :=
  ShareVideo.mkState false true (Some SCREEN)
    (Some (ShareVideo.mkStopHandler
             [ShareVideo.CallSetSharing false None; ShareVideo.CallSetStopHandler None]
             Resolved))
    (Some ex_mp4) (Some ex_loaded_element).
(** * Properties *)

(** ** The coordinator's [stop] *)

Lemma UseShare_ref_after_run_calls calls : forall s,
  UseShare.stopHandlerRef (foldl (fun s c => UseShare.run_call c s) s calls)
  = UseShare.ref_after_calls calls (UseShare.stopHandlerRef s).
Proof.
  unfold UseShare.ref_after_calls.
  induction calls as [|c calls IH]; intros s; simpl; [reflexivity|].
  rewrite IH. f_equal. destruct c as [ | | |sharing type|fn]; try reflexivity.
  simpl. unfold UseShare.setSharing. destruct sharing; reflexivity.
Qed.

Lemma ShareVideo_ref_after_run_calls calls : forall s,
  ShareVideo.stopHandlerRef (foldl (fun s c => ShareVideo.run_call c s) s calls)
  = ShareVideo.ref_after_calls calls (ShareVideo.stopHandlerRef s).
Proof.
  unfold ShareVideo.ref_after_calls.
  induction calls as [|c calls IH]; intros s; simpl; [reflexivity|].
  rewrite IH. f_equal. destruct c as [ | | |sharing type|fn|file|element]; try reflexivity.
  simpl. unfold ShareVideo.setSharing. destruct sharing; reflexivity.
Qed.

Lemma ShareControls_ref_after_run_calls calls : forall s,
  ShareControls.stopHandlerRef (foldl (fun s c => ShareControls.run_call c s) s calls)
  = ShareControls.ref_after_calls calls (ShareControls.stopHandlerRef s).
Proof.
  unfold ShareControls.ref_after_calls.
  induction calls as [|c calls IH]; intros s; simpl; [reflexivity|].
  rewrite IH. f_equal. destruct c; reflexivity.
Qed.

(** What [stop] leaves behind, for each of the three providers. *)
Lemma UseShare_stop_spec (s : UseShare.State) :
  fst (UseShare.stop s) = Resolved
  /\ UseShare.activeType (snd (UseShare.stop s)) = None
  /\ UseShare.isSharing (snd (UseShare.stop s)) = false
  /\ UseShare.stopHandlerRef (snd (UseShare.stop s))
     = match UseShare.stopHandlerRef s with
       | Some (UseShare.mkStopHandler calls _) =>
           UseShare.ref_after_calls calls (UseShare.stopHandlerRef s)
       | None => None
       end.
Proof.
  split; [reflexivity|]. split; [reflexivity|]. split; [reflexivity|].
  unfold UseShare.stop.
  destruct (UseShare.stopHandlerRef s) as [[calls settles]|] eqn:Href; simpl.
  - rewrite <- Href. destruct settles; apply UseShare_ref_after_run_calls.
  - exact Href.
Qed.

Lemma ShareVideo_stop_spec (s : ShareVideo.State) :
  fst (ShareVideo.stop s) = Resolved
  /\ ShareVideo.activeType (snd (ShareVideo.stop s)) = None
  /\ ShareVideo.isSharing (snd (ShareVideo.stop s)) = false
  /\ ShareVideo.stopHandlerRef (snd (ShareVideo.stop s))
     = match ShareVideo.stopHandlerRef s with
       | Some (ShareVideo.mkStopHandler calls _) =>
           ShareVideo.ref_after_calls calls (ShareVideo.stopHandlerRef s)
       | None => None
       end.
Proof.
  split; [reflexivity|]. split; [reflexivity|].
  unfold ShareVideo.stop.
  destruct (ShareVideo.stopHandlerRef s) as [[calls settles]|] eqn:Href.
  - rewrite <- Href.
    destruct settles, (ShareVideo.activeType s) as [[|]|]; simpl;
      (split; [reflexivity | apply ShareVideo_ref_after_run_calls]).
  - destruct (ShareVideo.activeType s) as [[|]|]; simpl; (split; [reflexivity | exact Href]).
Qed.

Lemma ShareControls_stop_spec (s : ShareControls.State) :
  fst (ShareControls.stop s) = Resolved
  /\ ShareControls.activeType (snd (ShareControls.stop s)) = None
  /\ ShareControls.stopHandlerRef (snd (ShareControls.stop s))
     = match ShareControls.stopHandlerRef s with
       | Some (ShareControls.mkStopHandler calls _) =>
           ShareControls.ref_after_calls calls (ShareControls.stopHandlerRef s)
       | None => None
       end.
Proof.
  split; [reflexivity|]. split; [reflexivity|].
  unfold ShareControls.stop.
  destruct (ShareControls.stopHandlerRef s) as [[calls settles]|] eqn:Href.
  - rewrite <- Href.
    destruct settles, (ShareControls.activeType s) as [[|]|]; simpl;
      apply ShareControls_ref_after_run_calls.
  - destruct (ShareControls.activeType s) as [[|]|]; simpl; exact Href.
Qed.

(** C1, as stated, fails: a registered handler that makes no call on the
    context value (the video tab registers [() => stopSharing()]) is still
    registered after [stop], whether it resolves or rejects. *)
Lemma stop_leaves_handler_registered :
  ~ (UseShare.activeType (snd (UseShare.stop ex_sharing_video)) = None
     /\ UseShare.stopHandlerRef (snd (UseShare.stop ex_sharing_video)) = None).
Proof. simpl. intros [_ Hnone]. discriminate Hnone. Qed.

(** C1 (amended): [stop] always resolves, whatever the handler does, and
    leaves [activeType] null and [isSharing] false; it never writes the
    handler reference itself, so the reference afterwards is the one the
    handler's own [setStopHandler] calls left (the registered handler when
    it makes none). *)
Theorem stop_clears_mode_not_handler :
  (forall s : UseShare.State,
     fst (UseShare.stop s) = Resolved
     /\ UseShare.activeType (snd (UseShare.stop s)) = None
     /\ UseShare.isSharing (snd (UseShare.stop s)) = false
     /\ UseShare.stopHandlerRef (snd (UseShare.stop s))
        = match UseShare.stopHandlerRef s with
          | Some (UseShare.mkStopHandler calls _) =>
              UseShare.ref_after_calls calls (UseShare.stopHandlerRef s)
          | None => None
          end)
  /\ (forall s : ShareVideo.State,
     fst (ShareVideo.stop s) = Resolved
     /\ ShareVideo.activeType (snd (ShareVideo.stop s)) = None
     /\ ShareVideo.isSharing (snd (ShareVideo.stop s)) = false
     /\ ShareVideo.stopHandlerRef (snd (ShareVideo.stop s))
        = match ShareVideo.stopHandlerRef s with
          | Some (ShareVideo.mkStopHandler calls _) =>
              ShareVideo.ref_after_calls calls (ShareVideo.stopHandlerRef s)
          | None => None
          end).
Proof. split; [exact UseShare_stop_spec | exact ShareVideo_stop_spec]. Qed.

(** ** The handler/mode invariant *)

(** C4, as stated, fails: registering a handler on the initial state gives
    a handler without an active mode. *)
Lemma handler_registered_without_mode :
  ~ UseShare_handler_iff_active
      (UseShare.run_ops [UseShare.OpSetStopHandler (Some ex_failing_handler)]
         UseShare.initial).
Proof.
  unfold UseShare_handler_iff_active. simpl. intros [Hto _].
  apply Hto; [discriminate | reflexivity].
Qed.

(** C4 (amended): the coordinator sets the two fields independently and
    does not enforce the invariant; it holds in the states reached under
    the caller discipline of the share tabs. *)
Theorem handler_iff_active_when_paired
    (s : UseShare.State) (c : ShareControls.State)
    (Hs : UseShare_paired s) (Hc : ShareControls_paired c) :
  UseShare_handler_iff_active s /\ ShareControls_handler_iff_active c.
Proof.
  split.
  - clear c Hc. unfold UseShare_handler_iff_active.
    induction Hs as [|s o Hs IH Ho|s type fn Hs IH|s Hs IH|s calls settles Hs IH Href Hclr].
    + simpl. split; intros Hn; contradiction.
    + destruct Ho as [->|[->| ->]]; exact IH.
    + simpl. split; intros _; discriminate.
    + simpl. split; intros Hn; contradiction.
    + destruct (UseShare_stop_spec s) as (_ & Hact & _ & Hh).
      rewrite Hact, Hh, Href. rewrite <- Href, Hclr. split; intros Hn; contradiction.
  - clear s Hs. unfold ShareControls_handler_iff_active.
    induction Hc as [|c o Hc IH Ho|c type fn Hc IH|c Hc IH|c calls settles Hc IH Href Hclr].
    + simpl. split; intros Hn; contradiction.
    + destruct Ho as [->|[->| ->]]; exact IH.
    + simpl. split; intros _; discriminate.
    + simpl. split; intros Hn; contradiction.
    + destruct (ShareControls_stop_spec c) as (_ & Hact & Hh).
      rewrite Hact, Hh, Href. rewrite <- Href, Hclr. split; intros Hn; contradiction.
Qed.

(** Two states under the discipline: the screen tab started a share and
    [stop] ran its handler; the video tab started a share. *)
Lemma handler_iff_active_when_paired_witness :
  UseShare_handler_iff_active (snd (UseShare.stop ex_screen_started))
  /\ ShareControls_handler_iff_active ex_video_started.
Proof.
  apply (handler_iff_active_when_paired
           (snd (UseShare.stop ex_screen_started)) ex_video_started).
  - apply (UseShare_paired_stop ex_screen_started
             [UseShare.CallSetSharing false None; UseShare.CallSetStopHandler None]
             Resolved).
    + apply UseShare_paired_start, UseShare_paired_initial.
    + reflexivity.
    + reflexivity.
  - apply ShareControls_paired_start, ShareControls_paired_initial.
Defined.

(** ** The remote playback controls *)

Lemma methods_distinct :
  VideoControls.PAUSE_STREAM_METHOD <> VideoControls.SEEK_STREAM_METHOD.
Proof. discriminate. Qed.

(** After the effect ran with a bound element and sharing active, the two
    methods are bound to closures over the model of that render, whatever
    the model and the element become afterwards. *)
Lemma registered_closures (m m' : VideoControls.ReadModel) (el : HTMLVideoElement)
    (e' : option HTMLVideoElement) (r : gmap string VideoControls.RpcHandler) (l : bool) :
  let w := VideoControls.with_element e'
             (VideoControls.with_model m'
                (VideoControls.effect true (VideoControls.mkWorld m (Some el) r l))) in
  VideoControls.rpcMethods w !! VideoControls.PAUSE_STREAM_METHOD
  = Some (VideoControls.PauseHandler (VideoControls.isPlaying m))
  /\ VideoControls.rpcMethods w !! VideoControls.SEEK_STREAM_METHOD
     = Some (VideoControls.SeekHandler (VideoControls.currentTime m) (VideoControls.duration m)).
Proof.
  simpl. split.
  - rewrite lookup_insert_ne by (symmetry; apply methods_distinct).
    apply lookup_insert_eq.
  - apply lookup_insert_eq.
Qed.

(** C5, at the failing input: the methods were registered while the model
    said "not playing"; the element has started playing since.  One remote
    pause/resume call answers "false" although the flag was [true], and
    leaves the flag [true]: it neither returns the previous value nor flips
    it.  The bound element is not touched. *)
Theorem pause_toggle_uses_registration_value :
  VideoControls.isPlaying (VideoControls.model ex_playing) = true
  /\ exists w',
       VideoControls.invoke VideoControls.PAUSE_STREAM_METHOD (Num 0) ex_playing
       = Some ("false", w')
       /\ VideoControls.isPlaying (VideoControls.model w') = true
       /\ VideoControls.videoElement w' = VideoControls.videoElement ex_playing.
Proof.
  split; [reflexivity|].
  eexists. split; [vm_compute; reflexivity|]. split; reflexivity.
Qed.

(** C6, at the failing input: same registration; the model now has
    [currentTime = 50] and [duration = 60].  A relative seek by [20] answers
    "0" and sets [currentTime] to [min(max(0, 0 + 20), 0) = 0], where the
    specification's example asks for [60] and the answer "50". *)
Theorem relative_seek_uses_registration_values :
  VideoControls.currentTime (VideoControls.model ex_playing) = Num 50
  /\ VideoControls.duration (VideoControls.model ex_playing) = Num 60
  /\ exists w',
       VideoControls.invoke VideoControls.SEEK_STREAM_METHOD (Num 20) ex_playing
       = Some ("0", w')
       /\ VideoControls.currentTime (VideoControls.model w') = Num 0.
Proof.
  split; [reflexivity|]. split; [reflexivity|].
  eexists. split; [vm_compute; reflexivity|]. reflexivity.
Qed.

(** C9: both handlers compute from the values of the render that
    registered them.  For every model [m] at registration, every later
    model [m'] and element [e'], and every offset: the pause/resume call
    answers [String(m.isPlaying)] and writes its negation; the seek call
    answers [String(m.currentTime)] and writes the clamp of
    [m.currentTime + offset] into [0, m.duration]; and two pause/resume
    calls in a row give the same answer and the same flag. *)
Theorem handlers_use_captured_values
    (m m' : VideoControls.ReadModel) (el : HTMLVideoElement)
    (e' : option HTMLVideoElement) (r : gmap string VideoControls.RpcHandler) (l : bool)
    (offset offset' : number) :
  let w := VideoControls.with_element e'
             (VideoControls.with_model m'
                (VideoControls.effect true (VideoControls.mkWorld m (Some el) r l))) in
  let w1 := VideoControls.with_model
              (VideoControls.setIsPlaying (negb (VideoControls.isPlaying m)) m') w in
  VideoControls.invoke VideoControls.PAUSE_STREAM_METHOD offset w
  = Some (String_of_bool (VideoControls.isPlaying m), w1)
  /\ VideoControls.invoke VideoControls.SEEK_STREAM_METHOD offset w
     = Some (String_of_number (VideoControls.currentTime m),
             VideoControls.with_model
               (VideoControls.setCurrentTime
                  (Math_min (Math_max (Num 0)
                               (number_add (VideoControls.currentTime m) offset))
                     (VideoControls.duration m)) m') w)
  /\ VideoControls.invoke VideoControls.PAUSE_STREAM_METHOD offset' w1
     = Some (String_of_bool (VideoControls.isPlaying m), w1).
Proof.
  intros w w1.
  destruct (registered_closures m m' el e' r l) as [Hpause Hseek].
  fold w in Hpause, Hseek.
  assert (Hpause1 : VideoControls.rpcMethods w1 !! VideoControls.PAUSE_STREAM_METHOD
                    = Some (VideoControls.PauseHandler (VideoControls.isPlaying m)))
    by exact Hpause.
  unfold VideoControls.invoke. rewrite Hpause, Hseek, Hpause1.
  split; [reflexivity|]. split; reflexivity.
Qed.

(** ** File selection *)

(** C8, as stated, fails.  A type that begins with "video" but not with
    "video/" is rejected by [handleFileSelect]; and the provider's hidden
    input drops a non-video file without any message: its state, which has
    no message field, is unchanged. *)
Lemma file_selection_differs :
  (startsWith "video" (file_type ex_bare_video) = true
   /\ VideoFileModal.selectedFile
        (VideoFileModal.handleFileSelect [ex_bare_video] (VideoFileModal.mkState None None))
      <> Some ex_bare_video)
  /\ (startsWith "video" (file_type ex_png) = false
      /\ ShareVideo.onChange [ex_png] ShareVideo.initial = ShareVideo.initial).
Proof.
  split; split; try reflexivity. simpl. discriminate.
Qed.

(** C8 (amended): the test is on the prefix "video/".  [handleFileSelect]
    rejects any other file with the message "Please select a valid video
    file" and keeps the selected file; it selects a "video/" file and
    clears the message.  The provider's input selects a "video/" file and
    ignores any other file, silently. *)
Theorem file_selection_by_video_prefix
    (file : File) (more : list File) (s : VideoFileModal.State) (p : ShareVideo.State) :
  VideoFileModal.handleFileSelect (file :: more) s
  = (if startsWith "video/" (file_type file)
     then VideoFileModal.mkState (Some file) None
     else VideoFileModal.mkState (VideoFileModal.selectedFile s)
            (Some "Please select a valid video file"))
  /\ ShareVideo.onChange (file :: more) p
     = (if startsWith "video/" (file_type file)
        then ShareVideo.mkState (ShareVideo.isOpen p) (ShareVideo.isSharing p)
               (ShareVideo.activeType p) (ShareVideo.stopHandlerRef p) (Some file)
               (ShareVideo.videoElement p)
        else p).
Proof.
  unfold VideoFileModal.handleFileSelect, ShareVideo.onChange. cbn [head].
  destruct (startsWith "video/" (file_type file)); split; reflexivity.
Qed.

(** The scenario of the specification: a 12 MB [video/mp4] file becomes the
    selected file and no message is shown. *)
Example select_mp4 :
  VideoFileModal.handleFileSelect [ex_mp4]
    (VideoFileModal.mkState None (Some "Please select a valid video file"))
  = VideoFileModal.mkState (Some ex_mp4) None
  /\ ShareVideo.selectedFile (ShareVideo.onChange [ex_mp4] ShareVideo.initial) = Some ex_mp4.
Proof. split; reflexivity. Qed.

(** ** The engine: stopping *)

(** The unpublish loop stops at the first handle whose call is rejected;
    handles without a track are passed over. *)
Lemma for_of_unpublish_rejected {H} (env : Env) (ps : list LocalTrackPublication)
    (t : MediaStreamTrack) (err : Thrown) : forall w : World H,
  head (omap track ps) = Some t ->
  unpublishTrack_settles env (log w) t = Rejected err ->
  for_of ps (fun p => match track p with
                      | Some t => unpublishTrack env t
                      | None => ret tt
                      end) w
  = (Threw err,
     mkWorld (hook w) (videoElement w) (log w ++ [EvUnpublishTrack t (Rejected err)])).
Proof.
  induction ps as [|p ps IH]; intros w Hhead Hrej; [discriminate|].
  simpl in Hhead. cbn [for_of]. unfold bind at 1.
  destruct (track p) as [t0|] eqn:Htrack; simpl in Hhead.
  - injection Hhead as ->. unfold unpublishTrack. rewrite Hrej. reflexivity.
  - unfold ret at 1. destruct w as [h e l]. apply IH; assumption.
Qed.

(** C7: on an engine that retains no handle and no stream, [stopSharing]
    returns normally, makes no [unpublishTrack] call, reports no error,
    leaves [isSharing] false and still calls [onTrackUnpublished] (when the
    caller supplied it), then pauses the bound element; a second call
    leaves the same hook state.  Both versions of the hook. *)
Theorem stopSharing_idle (env : Env) (options : Callbacks)
    (w : World FileShare.Hook) (v : World FileShareSingle.Hook)
    (Hw : FileShare.idle (hook w) = true)
    (Hv : FileShareSingle.idle (hook v) = true) :
  let notified := if onTrackUnpublished options then [EvOnTrackUnpublished] else [] in
  let rw := FileShare.stopSharing env options w in
  let rv := FileShareSingle.stopSharing env options v in
  (fst rw = Returned tt
   /\ hook (snd rw) = FileShare.mkHook false false (FileShare.error (hook w)) None None None
   /\ log (snd rw)
      = log w ++ notified ++ match videoElement w with Some _ => [EvPause] | None => [] end
   /\ hook (snd (FileShare.stopSharing env options (snd rw))) = hook (snd rw))
  /\ (fst rv = Returned tt
      /\ hook (snd rv)
         = FileShareSingle.mkHook false false (FileShareSingle.error (hook v)) None None None
      /\ log (snd rv)
         = log v ++ notified ++ match videoElement v with Some _ => [EvPause] | None => [] end
      /\ hook (snd (FileShareSingle.stopSharing env options (snd rv))) = hook (snd rv)).
Proof.
  destruct options as [oe op [|]];
    destruct w as [[sh ld er [p|] ats [s|]] [el|] lg]; try discriminate Hw;
    destruct ats as [[|a ats]|]; try discriminate Hw;
    destruct v as [[sh' ld' er' [p'|] [a'|] [s'|]] [el'|] lg']; try discriminate Hv;
    cbn; rewrite <- ?app_assoc, ?app_nil_r; repeat split; reflexivity.
Qed.

Lemma stopSharing_idle_witness :
  log (snd (FileShare.stopSharing ex_env_ok ex_callbacks ex_idle))
  = [EvOnTrackUnpublished; EvPause]
  /\ log (snd (FileShareSingle.stopSharing ex_env_ok ex_callbacks ex_idle_single))
     = [EvOnTrackUnpublished; EvPause].
Proof.
  destruct (stopSharing_idle ex_env_ok ex_callbacks ex_idle ex_idle_single
              eq_refl eq_refl) as [(_ & _ & Hlog & _) (_ & _ & Hlog' & _)].
  split; [exact Hlog | exact Hlog'].
Defined.

(** C10: when the first [unpublishTrack] call of [stopSharing] is rejected,
    the call still returns normally: the error is stored and passed to
    [onError] (when supplied), and nothing else happened.  [isSharing]
    keeps its value (true on a sharing engine), every handle and the stream
    stay retained, no track is stopped, [onTrackUnpublished] is not called
    and the element is not paused.  Both versions of the hook. *)
Theorem stopSharing_first_unpublish_rejected (env : Env) (options : Callbacks)
    (w : World FileShare.Hook) (v : World FileShareSingle.Hook)
    (t t' : MediaStreamTrack) (err err' : Thrown)
    (Hfirst : FileShare.first_unpublished (hook w) = Some t)
    (Hrej : unpublishTrack_settles env (log w) t = Rejected err)
    (Hfirst' : FileShareSingle.first_unpublished (hook v) = Some t')
    (Hrej' : unpublishTrack_settles env (log v) t' = Rejected err') :
  let e := as_Error err "Failed to stop sharing" in
  let e' := as_Error err' "Failed to stop sharing" in
  FileShare.stopSharing env options w
  = (Returned tt,
     mkWorld
       (FileShare.mkHook (FileShare.isSharing (hook w)) false (Some e)
          (FileShare.videoTrackRef (hook w)) (FileShare.audioTracksRef (hook w))
          (FileShare.streamRef (hook w)))
       (videoElement w)
       (log w ++ EvUnpublishTrack t (Rejected err)
              :: (if onError options then [EvOnError e] else [])))
  /\ FileShareSingle.stopSharing env options v
     = (Returned tt,
        mkWorld
          (FileShareSingle.mkHook (FileShareSingle.isSharing (hook v)) false (Some e')
             (FileShareSingle.videoTrackRef (hook v)) (FileShareSingle.audioTrackRef (hook v))
             (FileShareSingle.streamRef (hook v)))
          (videoElement v)
          (log v ++ EvUnpublishTrack t' (Rejected err')
                 :: (if onError options then [EvOnError e'] else []))).
Proof.
  intros e e'. split.
  - clear v t' err' Hfirst' Hrej' e'.
    destruct w as [[sh ld er vt ats sr] el lg].
    unfold FileShare.first_unpublished, FileShare.retained_handles in Hfirst.
    cbn [hook FileShare.videoTrackRef FileShare.audioTracksRef] in Hfirst.
    cbn [hook log] in Hrej |- *.
    unfold FileShare.stopSharing, try_catch_finally, FileShare.stopSharing_try.
    assert (Hvideo :
      (exists p, vt = Some p /\ track p = Some t)
      \/ ((vt = None \/ exists p, vt = Some p /\ track p = None)
          /\ exists ps, ats = Some ps /\ head (omap track ps) = Some t)).
    { destruct vt as [p|].
      - destruct (track p) as [t0|] eqn:Htrack.
        + left. exists p. split; [reflexivity|].
          simpl in Hfirst. rewrite Htrack in Hfirst. simpl in Hfirst. congruence.
        + right. split; [right; eauto|].
          simpl in Hfirst. rewrite Htrack in Hfirst.
          destruct ats as [ps|]; [eauto | discriminate].
      - right. split; [left; reflexivity|].
        destruct ats as [ps|]; [eauto | discriminate]. }
    destruct Hvideo as [(p & -> & Htrack) | [Hvt (ps & -> & Hhead)]].
    + run. rewrite Htrack. run. rewrite Hrej. run.
      destruct (onError options); run; rewrite <- ?app_assoc; reflexivity.
    + assert (Hloop := for_of_unpublish_rejected env ps t err
                (mkWorld (FileShare.mkHook sh true er vt (Some ps) sr) el lg) Hhead Hrej).
      run_in Hloop.
      destruct Hvt as [-> | (p & -> & Htrack)]; run; rewrite ?Htrack; run;
        rewrite Hloop; run; destruct (onError options); run;
        rewrite <- ?app_assoc; reflexivity.
  - clear w t err Hfirst Hrej e.
    destruct v as [[sh ld er vt at' sr] el lg].
    unfold FileShareSingle.first_unpublished, FileShareSingle.retained_handles in Hfirst'.
    cbn [hook FileShareSingle.videoTrackRef FileShareSingle.audioTrackRef] in Hfirst'.
    cbn [hook log] in Hrej' |- *.
    unfold FileShareSingle.stopSharing, try_catch_finally, FileShareSingle.stopSharing_try.
    destruct vt as [p|]; [destruct (track p) as [t0|] eqn:Htrack|];
      simpl in Hfirst'; rewrite ?Htrack in Hfirst'; simpl in Hfirst'.
    + injection Hfirst' as ->. run. rewrite Htrack. run. rewrite Hrej'. run.
      destruct (onError options); run; rewrite <- ?app_assoc; reflexivity.
    + destruct at' as [a|]; [|discriminate].
      destruct (track a) as [t0|] eqn:Htrack'; simpl in Hfirst';
        rewrite ?Htrack' in Hfirst'; [|discriminate].
      injection Hfirst' as ->. run. rewrite Htrack. run. rewrite Htrack'. run.
      rewrite Hrej'. run.
      destruct (onError options); run; rewrite <- ?app_assoc; reflexivity.
    + destruct at' as [a|]; [|discriminate].
      destruct (track a) as [t0|] eqn:Htrack'; simpl in Hfirst';
        rewrite ?Htrack' in Hfirst'; [|discriminate].
      injection Hfirst' as ->. run. rewrite Htrack'. run. rewrite Hrej'. run.
      destruct (onError options); run; rewrite <- ?app_assoc; reflexivity.
Qed.

Lemma stopSharing_first_unpublish_rejected_witness :
  FileShare.isSharing
    (hook (snd (FileShare.stopSharing ex_env_unpublish_fails ex_callbacks ex_sharing))) = true
  /\ FileShareSingle.isSharing
       (hook (snd (FileShareSingle.stopSharing ex_env_unpublish_fails ex_callbacks
                     ex_sharing_single))) = true.
Proof.
  destruct (stopSharing_first_unpublish_rejected ex_env_unpublish_fails ex_callbacks
              ex_sharing ex_sharing_single ex_video_track ex_video_track
              ex_disconnected ex_disconnected eq_refl eq_refl eq_refl eq_refl)
    as [Hw Hv].
  rewrite Hw, Hv. split; reflexivity.
Defined.

(** ** The engine: a stop in which no unpublish call fails *)

Lemma for_of_unpublish_resolved {H} (env : Env)
    (Hok : forall l t, unpublishTrack_settles env l t = Resolved)
    (ps : list LocalTrackPublication) : forall w : World H,
  for_of ps (fun p => match track p with
                      | Some t => unpublishTrack env t
                      | None => ret tt
                      end) w
  = (Returned tt,
     mkWorld (hook w) (videoElement w)
       (log w ++ map (fun t => EvUnpublishTrack t Resolved) (omap track ps))).
Proof.
  induction ps as [|p ps IH]; intros [h e l].
  - cbn. rewrite app_nil_r. reflexivity.
  - cbn [for_of]. unfold bind at 1. cbn [omap list_omap].
    destruct (track p) as [t|].
    + unfold unpublishTrack. rewrite Hok. rewrite IH. cbn. rewrite <- app_assoc. reflexivity.
    + unfold ret at 1. apply IH.
Qed.

Lemma for_of_track_stop {H} (ts : list MediaStreamTrack) : forall w : World H,
  for_of ts (fun t => emit (EvTrackStop t)) w
  = (Returned tt, mkWorld (hook w) (videoElement w) (log w ++ map EvTrackStop ts)).
Proof.
  induction ts as [|t ts IH]; intros [h e l].
  - cbn. rewrite app_nil_r. reflexivity.
  - cbn [for_of]. unfold bind at 1, emit at 1. rewrite IH. cbn.
    rewrite <- app_assoc. reflexivity.
Qed.

Lemma stopSharing_unpublish_resolved (env : Env) (options : Callbacks)
    (Hok : forall l t, unpublishTrack_settles env l t = Resolved)
    (w : World FileShare.Hook) :
  FileShare.stopSharing env options w
  = (Returned tt,
     mkWorld
       (FileShare.mkHook false false (FileShare.error (hook w))
          match FileShare.videoTrackRef (hook w) with
          | Some p => if FileShare.has_track p then None else Some p
          | None => None
          end
          None None)
       (paused_element <$> videoElement w)
       (log w ++ FileShare.stop_events options w)).
Proof.
  destruct w as [[sh ld er vt ats sr] el lg].
  unfold FileShare.stopSharing, FileShare.stopSharing_try, FileShare.stop_events,
    FileShare.retained_handles, FileShare.has_track.
  run.
  destruct vt as [p|]; [destruct (track p) as [t|] eqn:Htrack|];
    cbn [omap list_omap app]; rewrite ?Htrack; rewrite ?Hok; run.
  all: destruct ats as [ps|];
    [ pose proof (fun w => for_of_unpublish_resolved (H:=FileShare.Hook) env Hok ps w) as Hloop;
      run_in Hloop; rewrite Hloop; run
    | ].
  all: destruct sr as [s|];
    [ pose proof (fun w => for_of_track_stop (H:=FileShare.Hook) (getTracks s) w) as Hstop;
      run_in Hstop; rewrite Hstop; run
    | ].
  all: destruct (onTrackUnpublished options), el as [el|]; run;
    cbn [fmap option_fmap option_map map app];
    rewrite <- ?app_assoc; cbn [app]; rewrite ?app_nil_r; reflexivity.
Qed.

(** ** The engine: what a stop never does *)

Section Frames.
Context {H : Type} (P : H -> Prop).

Lemma frames_ret {A} (a : A) : frames P (ret a).
Proof. intros w Hw. exact Hw. Qed.

Lemma frames_bind {A B} (m : M H A) (k : A -> M H B) :
  frames P m -> (forall a, frames P (k a)) -> frames P (bind m k).
Proof.
  intros Hm Hk w Hw. unfold bind. specialize (Hm w Hw).
  destruct (m w) as [[a|err] w']; [apply Hk|]; exact Hm.
Qed.

Lemma frames_for_of {A} (xs : list A) (body : A -> M H unit) :
  (forall x, frames P (body x)) -> frames P (for_of xs body).
Proof.
  intros Hbody. induction xs as [|x xs IH]; cbn [for_of].
  - apply frames_ret.
  - apply frames_bind; [apply Hbody | intros _; exact IH].
Qed.

Lemma frames_modify_hook (f : H -> H) :
  (forall h, P h -> P (f h)) -> frames P (modify_hook f).
Proof. intros Hf w Hw. apply Hf, Hw. Qed.

Lemma frames_get_hook : frames P get_hook.
Proof. intros w Hw. exact Hw. Qed.

Lemma frames_get_element : frames P get_element.
Proof. intros w Hw. exact Hw. Qed.

Lemma frames_emit (ev : Event) : frames P (emit ev).
Proof. intros w Hw. exact Hw. Qed.

Lemma frames_call_optional (given : bool) (ev : Event) : frames P (call_optional given ev).
Proof. destruct given; [apply frames_emit | apply frames_ret]. Qed.

Lemma frames_pause (el : HTMLVideoElement) : frames P (pause el).
Proof. intros w Hw. exact Hw. Qed.

Lemma frames_unpublishTrack (env : Env) (t : MediaStreamTrack) :
  frames P (unpublishTrack env t).
Proof.
  intros w Hw. unfold unpublishTrack.
  destruct (unpublishTrack_settles env (log w) t); exact Hw.
Qed.

End Frames.

(** The [try] block of [stopSharing] does not touch the stored error. *)
Lemma stopSharing_try_keeps_error (env : Env) (options : Callbacks) (o : option Error) :
  frames (fun h => FileShare.error h = o) (FileShare.stopSharing_try env options).
Proof.
  unfold FileShare.stopSharing_try.
  repeat first
    [ apply frames_bind; [|intros ?]
    | apply frames_for_of; intros ?
    | apply frames_modify_hook; intros ? ?; assumption
    | apply frames_get_hook
    | apply frames_get_element
    | apply frames_emit
    | apply frames_call_optional
    | apply frames_pause
    | apply frames_unpublishTrack
    | apply frames_ret
    | match goal with
      | |- frames _ (match ?x with _ => _ end) => destruct x
      end ].
Qed.

(** Once an error is stored, it is still stored after [stopSharing]. *)
Lemma stopSharing_keeps_an_error (env : Env) (options : Callbacks)
    (w : World FileShare.Hook) :
  FileShare.error (hook w) <> None ->
  FileShare.error (hook (snd (FileShare.stopSharing env options w))) <> None.
Proof.
  intros Herr. unfold FileShare.stopSharing, try_catch_finally.
  pose proof (stopSharing_try_keeps_error env options (FileShare.error (hook w)) w eq_refl)
    as Htry.
  destruct (FileShare.stopSharing_try env options w)
    as [[[]|err] [[sh ld er vt ats sr] e1 l1]]; cbn in Htry; subst er.
  - run. exact Herr.
  - run. destruct (onError options); run; discriminate.
Qed.

(** ** The engine: starting *)

Lemma rejected_publishes_app (l l' : list Event) :
  rejected_publishes (l ++ l') = rejected_publishes l ++ rejected_publishes l'.
Proof. apply omap_app. Qed.

Lemma rejected_publishes_resolved (o : TrackPublishOptions) (ts : list MediaStreamTrack) :
  rejected_publishes (map (fun t => EvPublishTrack t o Resolved) ts) = [].
Proof. induction ts as [|t ts IH]; [reflexivity | exact IH]. Qed.

Lemma filter_publish_resolved (o : TrackPublishOptions) (ts : list MediaStreamTrack) :
  List.filter is_publish (map (fun t => EvPublishTrack t o Resolved) ts)
  = map (fun t => EvPublishTrack t o Resolved) ts.
Proof. induction ts as [|t ts IH]; [reflexivity | cbn; rewrite IH; reflexivity]. Qed.

Lemma filter_onError_resolved (o : TrackPublishOptions) (ts : list MediaStreamTrack) :
  List.filter is_onError (map (fun t => EvPublishTrack t o Resolved) ts) = [].
Proof. induction ts as [|t ts IH]; [reflexivity | exact IH]. Qed.

(** The audio loop of [startSharing]: it appends one tracked handle per
    resolved publish and stops at the first rejection. *)
Lemma for_of_publish_audio (env : Env) (o : TrackPublishOptions)
    (tracks : list MediaStreamTrack) :
  forall (w w1 : World FileShare.Hook) (acc : list LocalTrackPublication) (r : Result unit),
  FileShare.audioTracksRef (hook w) = Some acc ->
  for_of tracks (fun rawAudioTrack =>
    let! audioTrack := publishTrack env rawAudioTrack o in
    modify_hook (FileShare.push_audioTrack audioTrack)) w = (r, w1) ->
  exists pubs delta,
    w1 = mkWorld (FileShare.set_audioTracksRef (Some (acc ++ pubs)) (hook w))
           (videoElement w) (log w ++ delta)
    /\ forallb FileShare.has_track pubs = true
    /\ List.filter is_onError delta = []
    /\ match r with
       | Returned _ => delta = map (fun t => EvPublishTrack t o Resolved) tracks
       | Threw err => rejected_publishes delta = [err]
       end.
Proof.
  induction tracks as [|t ts IH]; intros [[sh ld er vt ats sr] el lg] w1 acc r Hacc Hrun;
    cbn in Hacc; subst ats.
  - injection Hrun as <- <-. exists [], []. rewrite !app_nil_r. repeat split.
  - cbn [for_of] in Hrun. unfold bind at 1 2, publishTrack at 1 in Hrun.
    cbn [hook videoElement log] in Hrun.
    destruct (publishTrack_settles env lg t o) as [|err].
    + unfold modify_hook at 1 in Hrun. cbn [hook videoElement log] in Hrun.
      apply (IH _ _ (acc ++ [mkPublication (Some t) (name o) (source o)])) in Hrun;
        [|reflexivity].
      destruct Hrun as (pubs & delta & -> & Hpubs & Herr & Hr).
      exists (mkPublication (Some t) (name o) (source o) :: pubs),
             (EvPublishTrack t o Resolved :: delta).
      cbn [hook videoElement log]. rewrite <- !app_assoc. cbn [app].
      split; [reflexivity|]. split; [exact Hpubs|]. split; [exact Herr|].
      destruct r as [[]|err]; [rewrite Hr; reflexivity | exact Hr].
    + injection Hrun as <- <-. exists [], [EvPublishTrack t o (Rejected err)].
      rewrite app_nil_r. repeat split.
Qed.

Lemma handles_tracked_fields (sh ld : bool) (er : option Error)
    (vt : option LocalTrackPublication) (ats : option (list LocalTrackPublication))
    (sr : option MediaStream) :
  FileShare.handles_tracked (FileShare.mkHook sh ld er vt ats sr)
  = match vt with Some p => FileShare.has_track p | None => true end
    && match ats with Some ps => forallb FileShare.has_track ps | None => true end.
Proof. reflexivity. Qed.

Lemma rejected_publishes_cons (ev : Event) (l : list Event) :
  rejected_publishes (ev :: l)
  = match ev with
    | EvPublishTrack _ _ (Rejected err) => err :: rejected_publishes l
    | _ => rejected_publishes l
    end.
Proof. destruct ev as [| | |t o [|err]| | | | |]; reflexivity. Qed.

Lemma rejected_publishes_nil : rejected_publishes [] = [].
Proof. reflexivity. Qed.

(** Close a branch of the [try] block of [startSharing] whose run has been
    reduced to a pair. *)
Ltac close_branch Hrun Hv Ha :=
  injection Hrun as <- <-; eexists;
  cbn [hook log FileShare.isSharing FileShare.error FileShare.streamRef];
  split; [rewrite <- ?app_assoc; cbn [app]; reflexivity|];
  split; [cbn; rewrite ?List.filter_app, ?filter_onError_resolved; cbn;
          repeat match goal with H : List.filter is_onError _ = [] |- _ => rewrite H end;
          reflexivity|];
  split; [reflexivity|];
  split;
    [rewrite !handles_tracked_fields; cbn [FileShare.has_track track app];
     intros Ht; apply andb_true_iff in Ht as [Htv Hta]; apply andb_true_iff;
     split; assumption || reflexivity|];
  first
    [ split; [reflexivity|];
      eexists; split; [reflexivity|];
      unfold FileShare.expected_publishes; rewrite Hv, Ha;
      change (mkOptions "shared-video-file" ScreenShare (Some false) (Some (id ?s)))
        with (FileShare.video_options s);
      change (mkOptions "shared-video-audio" Unknown None (Some (id ?s)))
        with (FileShare.audio_options s);
      cbn; rewrite ?List.filter_app, ?filter_publish_resolved; cbn;
      rewrite ?app_nil_r; reflexivity
    | split; [reflexivity|];
      rewrite ?rejected_publishes_cons, ?rejected_publishes_app,
        ?rejected_publishes_resolved, ?rejected_publishes_nil; cbn;
      repeat match goal with H : rejected_publishes _ = _ |- _ => rewrite H end;
      (left; reflexivity) || (right; reflexivity) ].

(** Every way the [try] block of [startSharing] can end.  It never calls
    [onError] and leaves no stored error; when it returns, the engine is
    sharing and the publish calls are the expected ones for the captured
    stream; when it throws, [isSharing] is untouched and at most the
    publish call that threw was rejected. *)
Lemma startSharing_try_run (env : Env) (options : Callbacks) (el : HTMLVideoElement)
    (w w1 : World FileShare.Hook) (r : Result unit) :
  FileShare.startSharing_try env options el w = (r, w1) ->
  exists delta,
    log w1 = log w ++ delta
    /\ List.filter is_onError delta = []
    /\ FileShare.error (hook w1) = None
    /\ (FileShare.handles_tracked (hook w) = true ->
        FileShare.handles_tracked (hook w1) = true)
    /\ match r with
       | Returned _ =>
           FileShare.isSharing (hook w1) = true
           /\ exists s, FileShare.streamRef (hook w1) = Some s
                        /\ List.filter is_publish delta = FileShare.expected_publishes s
       | Threw err =>
           FileShare.isSharing (hook w1) = FileShare.isSharing (hook w)
           /\ (rejected_publishes delta = [] \/ rejected_publishes delta = [err])
       end.
Proof.
  destruct w as [[sh ld er vt ats sr] e0 lg], el as [pz mu ct du vo pr]. intros Hrun.
  unfold FileShare.startSharing_try in Hrun. run_in Hrun.
  destruct pz; [destruct (play_settles env lg) as [|err]|].
  2: { close_branch Hrun I I. }
  all: match type of Hrun with
       | context [captureStream_returns ?e ?l] =>
           destruct (captureStream_returns e l) as [s|err]
       end.
  2, 4: close_branch Hrun I I.
  all: destruct (getVideoTracks s) as [|v vs] eqn:Hv.
  all: try match type of Hrun with
       | context [publishTrack_settles ?e ?l ?t ?o] =>
           destruct (publishTrack_settles e l t o) as [|err]
       end.
  all: destruct (getAudioTracks s) as [|a ts] eqn:Ha.
  all: try (destruct (onTrackPublished options); close_branch Hrun Hv Ha).
  all: match type of Hrun with
       | context [for_of ?xs ?body ?W] =>
           destruct (for_of xs body W) as [r' w'] eqn:Hloop
       end.
  all: apply (for_of_publish_audio env (FileShare.audio_options s) _ _ _ []) in Hloop;
    [|reflexivity].
  all: destruct Hloop as (pubs & delta & -> & Hpubs & Herr & Hr).
  all: destruct r' as [[]|err']; run_in Hrun.
  all: try subst delta.
  all: try (destruct (onTrackPublished options); close_branch Hrun Hv Ha).
Qed.

Lemma new_events_app (l delta : list Event) : new_events l (l ++ delta) = delta.
Proof. unfold new_events. induction l as [|x l IH]; [reflexivity | exact IH]. Qed.

Lemma new_events_same (l : list Event) : new_events l l = [].
Proof. unfold new_events. induction l as [|x l IH]; [reflexivity | exact IH]. Qed.




(** The hook that keeps one handle per audio track: after a start that
    recorded no error, on a bound element and an engine that was not
    sharing, [isSharing] is true, the captured stream [s] is retained and
    the publish calls made are, in this order: one for the first video
    track, if any, named "shared-video-file", of source [ScreenShare], with
    [simulcast: false]; then one for each audio track named
    "shared-video-audio"; all of them resolved. *)
Lemma multi_audio_start_publishes_each_track (env : Env) (options : Callbacks)
    (w : World FileShare.Hook) (el : HTMLVideoElement)
    (Hel : videoElement w = Some el)
    (Hnot : FileShare.isSharing (hook w) = false)
    (Hok : FileShare.error (hook (snd (FileShare.startSharing env options w))) = None) :
  let w' := snd (FileShare.startSharing env options w) in
  fst (FileShare.startSharing env options w) = Returned tt
  /\ FileShare.isSharing (hook w') = true
  /\ exists s,
       FileShare.streamRef (hook w') = Some s
       /\ List.filter is_publish (new_events (log w) (log w'))
          = FileShare.expected_publishes s.
Proof.
  destruct w as [[sh ld er vt ats sr] e0 lg]. cbn in Hel, Hnot. subst e0 sh.
  revert Hok. unfold FileShare.startSharing. run. unfold try_catch_finally.
  destruct (FileShare.startSharing_try env options el _)
    as [[[]|err] [[sh1 ld1 er1 vt1 ats1 sr1] e1 lg1]] eqn:Htry;
    apply startSharing_try_run in Htry as (delta & Hlog & Honerr & Herr & Htracked & Hr);
    cbn [hook log FileShare.error FileShare.isSharing FileShare.streamRef] in *;
    subst lg1 er1.
  - destruct Hr as [-> (s & -> & Hpub)]. run. intros _.
    rewrite new_events_app. split; [reflexivity|]. split; [reflexivity|].
    exists s. split; [reflexivity | exact Hpub].
  - intros Hok. exfalso.
    unfold FileShare.startSharing_catch in Hok. run_in Hok.
    destruct (onError options); run_in Hok.
    all: match type of Hok with
         | context [FileShare.stopSharing ?e ?o ?W] =>
             pose proof (stopSharing_keeps_an_error e o W) as Hkeep;
             destruct (FileShare.stopSharing e o W)
               as [[[]|err3] [[sh3 ld3 er3 vt3 ats3 sr3] e3 lg3]]
         end.
    all: cbn in Hkeep, Hok; apply Hkeep; (discriminate || exact Hok).
Qed.


(** At that input the hook retains the video handle, an empty audio list
    and the stream, and [onError] was called twice. *)
Lemma failed_start_with_failed_cleanup_state :
  FileShare.isSharing (hook ex_failed_start) = false
  /\ (exists p, FileShare.videoTrackRef (hook ex_failed_start) = Some p)
  /\ FileShare.audioTracksRef (hook ex_failed_start) = Some []
  /\ FileShare.streamRef (hook ex_failed_start) = Some ex_stream
  /\ List.filter is_onError (log ex_failed_start)
     = [EvOnError (mkError "engine not connected");
        EvOnError (mkError "engine not connected")].
Proof. repeat split; eexists; reflexivity. Qed.



(** ** The engine: every way a stop can go *)

Lemma rejected_unpublishes_app (l l' : list Event) :
  rejected_unpublishes (l ++ l') = rejected_unpublishes l ++ rejected_unpublishes l'.
Proof. apply omap_app. Qed.

Lemma rejected_unpublishes_cons (ev : Event) (l : list Event) :
  rejected_unpublishes (ev :: l)
  = match ev with
    | EvUnpublishTrack _ (Rejected err) => err :: rejected_unpublishes l
    | _ => rejected_unpublishes l
    end.
Proof. destruct ev as [| | | |t [|err]| | | |]; reflexivity. Qed.

Lemma rejected_unpublishes_nil : rejected_unpublishes [] = [].
Proof. reflexivity. Qed.

Lemma rejected_unpublishes_track_stop (ts : list MediaStreamTrack) :
  rejected_unpublishes (map EvTrackStop ts) = [].
Proof. induction ts as [|t ts IH]; [reflexivity | exact IH]. Qed.

Lemma filter_onError_track_stop (ts : list MediaStreamTrack) :
  List.filter is_onError (map EvTrackStop ts) = [].
Proof. induction ts as [|t ts IH]; [reflexivity | exact IH]. Qed.

Lemma teardown_track_stop (ts : list MediaStreamTrack) :
  forallb teardown_event (map EvTrackStop ts) = true.
Proof. induction ts as [|t ts IH]; [reflexivity | exact IH]. Qed.

(** The unpublish loop, whatever the room answers: it changes nothing but
    the log, makes unpublish calls only, and stops at the first rejection. *)
Lemma for_of_unpublish_run {H} (env : Env) (ps : list LocalTrackPublication) :
  forall (w w1 : World H) (r : Result unit),
  for_of ps (fun p => match track p with
                      | Some t => unpublishTrack env t
                      | None => ret tt
                      end) w = (r, w1) ->
  exists delta,
    w1 = mkWorld (hook w) (videoElement w) (log w ++ delta)
    /\ forallb is_unpublish delta = true
    /\ match r with
       | Returned _ => rejected_unpublishes delta = []
       | Threw err => rejected_unpublishes delta = [err]
       end.
Proof.
  induction ps as [|p ps IH]; intros [h e l] w1 r Hrun.
  - injection Hrun as <- <-. exists []. rewrite app_nil_r. repeat split.
  - cbn [for_of] in Hrun. unfold bind at 1 in Hrun.
    destruct (track p) as [t|].
    + unfold unpublishTrack at 1 in Hrun. cbn [hook videoElement log] in Hrun.
      destruct (unpublishTrack_settles env l t) as [|err].
      * apply IH in Hrun as (delta & -> & Hun & Hr).
        exists (EvUnpublishTrack t Resolved :: delta).
        cbn [hook videoElement log]. rewrite <- app_assoc.
        split; [reflexivity|]. split; [exact Hun|].
        rewrite rejected_unpublishes_cons. exact Hr.
      * injection Hrun as <- <-. exists [EvUnpublishTrack t (Rejected err)].
        repeat split.
    + unfold ret at 1 in Hrun. apply IH in Hrun as (delta & -> & Hun & Hr).
      exists delta. repeat split; assumption.
Qed.

Lemma forallb_unpublish_teardown (l : list Event) :
  forallb is_unpublish l = true -> forallb teardown_event l = true.
Proof.
  induction l as [|ev l IH]; [reflexivity|]. cbn.
  intros [Hev Hl]%andb_true_iff. rewrite (IH Hl), andb_true_r.
  destruct ev; try discriminate Hev; reflexivity.
Qed.

Lemma forallb_unpublish_no_onError (l : list Event) :
  forallb is_unpublish l = true -> List.filter is_onError l = [].
Proof.
  induction l as [|ev l IH]; [reflexivity|]. cbn.
  intros [Hev Hl]%andb_true_iff. rewrite (IH Hl).
  destruct ev; try discriminate Hev; reflexivity.
Qed.

Lemma forallb_unpublish_no_track_stop (l : list Event) :
  forallb is_unpublish l = true -> List.filter is_track_stop l = [].
Proof.
  induction l as [|ev l IH]; [reflexivity|]. cbn.
  intros [Hev Hl]%andb_true_iff. rewrite (IH Hl).
  destruct ev; try discriminate Hev; reflexivity.
Qed.

Lemma filter_track_stop_singleton_free (l : list Event) :
  forallb is_unpublish l = true -> List.filter is_track_stop l = [].
Proof. apply forallb_unpublish_no_track_stop. Qed.

(** Bring an observation of a log made of pieces to its value. *)
Ltac norm_log :=
  try match goal with
      | H : forallb is_unpublish ?d = true |- _ =>
          pose proof (forallb_unpublish_teardown d H);
          pose proof (forallb_unpublish_no_onError d H);
          pose proof (forallb_unpublish_no_track_stop d H)
      end;
  repeat first
    [ rewrite forallb_app | rewrite List.filter_app | rewrite rejected_unpublishes_app
    | rewrite rejected_unpublishes_cons | rewrite rejected_unpublishes_nil
    | rewrite rejected_unpublishes_track_stop | rewrite filter_onError_track_stop
    | rewrite teardown_track_stop
    | match goal with
      | H : forallb teardown_event ?d = true |- context [forallb teardown_event ?d] =>
          rewrite H
      | H : List.filter is_onError ?d = [] |- context [List.filter is_onError ?d] =>
          rewrite H
      | H : List.filter is_track_stop ?d = [] |- context [List.filter is_track_stop ?d] =>
          rewrite H
      | H : rejected_unpublishes ?d = _ |- context [rejected_unpublishes ?d] =>
          rewrite H
      end ];
  cbn.

(** Every way [stopSharing] can go, for any room.  It always returns, with
    [isLoading] false, after teardown calls only.  Either no unpublish call
    was rejected and it completed: nothing was reported, the element is
    paused, [isSharing] is false and the audio list and the stream are
    dropped.  Or one unpublish call was rejected and it stopped there: the
    error is stored and reported, no track was stopped, the element is as
    it was, and [isSharing], the audio list and the stream are as they
    were. *)
Lemma stopSharing_run (env : Env) (options : Callbacks) (w : World FileShare.Hook) :
  exists w' delta,
    FileShare.stopSharing env options w = (Returned tt, w')
    /\ log w' = log w ++ delta
    /\ forallb teardown_event delta = true
    /\ FileShare.isLoading (hook w') = false
    /\ (FileShare.videoTrackRef (hook w') = FileShare.videoTrackRef (hook w)
        \/ FileShare.videoTrackRef (hook w') = None)
    /\ ((rejected_unpublishes delta = []
         /\ List.filter is_onError delta = []
         /\ FileShare.error (hook w') = FileShare.error (hook w)
         /\ FileShare.isSharing (hook w') = false
         /\ FileShare.audioTracksRef (hook w') = None
         /\ FileShare.streamRef (hook w') = None
         /\ videoElement w' = paused_element <$> videoElement w)
        \/ (exists err,
              rejected_unpublishes delta = [err]
              /\ List.filter is_onError delta
                 = (if onError options
                    then [EvOnError (as_Error err "Failed to stop sharing")] else [])
              /\ List.filter is_track_stop delta = []
              /\ FileShare.error (hook w') = Some (as_Error err "Failed to stop sharing")
              /\ FileShare.isSharing (hook w') = FileShare.isSharing (hook w)
              /\ FileShare.audioTracksRef (hook w') = FileShare.audioTracksRef (hook w)
              /\ FileShare.streamRef (hook w') = FileShare.streamRef (hook w)
              /\ videoElement w' = videoElement w)).
Proof.
  destruct w as [[sh ld er vt ats sr] el lg].
  unfold FileShare.stopSharing, FileShare.stopSharing_try. run.
  destruct vt as [p|];
    [destruct (track p) as [t|] eqn:Htrack;
       [destruct (unpublishTrack_settles env lg t) as [|err]|]|].
  all: try (destruct ats as [ps|];
    [ match goal with
      | |- context [for_of ps ?body ?W] =>
          destruct (for_of ps body W) as [r w1] eqn:Hloop;
          apply for_of_unpublish_run in Hloop as (dl & -> & Hun & Hr);
          destruct r as [[]|err']
      end | ]).
  all: run.
  all: try (destruct sr as [s|];
    [ pose proof (fun w => for_of_track_stop (H:=FileShare.Hook) (getTracks s) w) as Hstop;
      run_in Hstop; rewrite Hstop; run | ]).
  all: destruct (onTrackUnpublished options), (onError options), el as [el|]; run.
  all: eexists _, _; (split; [reflexivity|]);
    cbn [hook log videoElement FileShare.isLoading FileShare.error FileShare.isSharing
         FileShare.audioTracksRef FileShare.streamRef].
  all: split; [first [rewrite <- ?app_assoc; reflexivity | symmetry; apply app_nil_r]|].
  all: split; [norm_log; reflexivity|].
  all: split; [reflexivity|].
  all: cbn [FileShare.videoTrackRef]; split; [first [left; reflexivity | right; reflexivity]|].
  all: first
    [ left; repeat split; norm_log; reflexivity
    | right; eexists; repeat split; norm_log; reflexivity ].
Qed.

(** ** The engine: a start that returns *)

Lemma for_of_publish_audio_returned (env : Env) (o : TrackPublishOptions)
    (tracks : list MediaStreamTrack) :
  forall (w w1 : World FileShare.Hook) (acc : list LocalTrackPublication),
  FileShare.audioTracksRef (hook w) = Some acc ->
  for_of tracks (fun rawAudioTrack =>
    let! audioTrack := publishTrack env rawAudioTrack o in
    modify_hook (FileShare.push_audioTrack audioTrack)) w = (Returned tt, w1) ->
  w1 = mkWorld
         (FileShare.set_audioTracksRef (Some (acc ++ map (publication_of o) tracks)) (hook w))
         (videoElement w)
         (log w ++ map (fun t => EvPublishTrack t o Resolved) tracks).
Proof.
  induction tracks as [|t ts IH]; intros [[sh ld er vt ats sr] el lg] w1 acc Hacc Hrun;
    cbn in Hacc; subst ats.
  - injection Hrun as <-. cbn. rewrite !app_nil_r. reflexivity.
  - cbn [for_of] in Hrun. unfold bind at 1 2, publishTrack at 1 in Hrun.
    cbn [hook videoElement log] in Hrun.
    destruct (publishTrack_settles env lg t o) as [|err]; [|discriminate Hrun].
    unfold modify_hook at 1 in Hrun. cbn [hook videoElement log] in Hrun.
    apply (IH _ _ (acc ++ [publication_of o t])) in Hrun; [|reflexivity].
    subst w1. cbn. rewrite <- !app_assoc. reflexivity.
Qed.

(** When the [try] block of [startSharing] returns, the engine is sharing
    the captured stream [s], holds the handle of its first video track and
    one handle per audio track, the element plays unmuted at full volume,
    and the calls made are the start calls for [s] and nothing else. *)
Lemma startSharing_try_returned (env : Env) (options : Callbacks) (el : HTMLVideoElement)
    (w w1 : World FileShare.Hook) :
  FileShare.startSharing_try env options el w = (Returned tt, w1) ->
  exists s,
    w1 = mkWorld
           (FileShare.mkHook true true None
              match getVideoTracks s with
              | t :: _ => Some (publication_of (FileShare.video_options s) t)
              | [] => FileShare.videoTrackRef (hook w)
              end
              match getAudioTracks s with
              | [] => FileShare.audioTracksRef (hook w)
              | ts => Some (map (publication_of (FileShare.audio_options s)) ts)
              end
              (Some s))
           (Some (audible_element false el))
           (log w ++ start_events options (paused el) s).
Proof.
  destruct w as [[sh ld er vt ats sr] e0 lg], el as [pz mu ct du vo pr]. intros Hrun.
  unfold FileShare.startSharing_try in Hrun. run_in Hrun.
  destruct pz; [destruct (play_settles env lg) as [|err]; [|discriminate Hrun]|].
  all: match type of Hrun with
       | context [captureStream_returns ?e ?l] =>
           destruct (captureStream_returns e l) as [s|err]; [|discriminate Hrun]
       end.
  all: exists s; unfold start_events, FileShare.expected_publishes;
    destruct (getVideoTracks s) as [|v vs] eqn:Hv.
  all: try match type of Hrun with
       | context [publishTrack_settles ?e ?l ?t ?o] =>
           destruct (publishTrack_settles e l t o) as [|err]; [|discriminate Hrun]
       end.
  all: destruct (getAudioTracks s) as [|a ts] eqn:Ha.
  all: try match type of Hrun with
       | context [for_of ?xs ?body ?W] =>
           destruct (for_of xs body W) as [[[]|err'] w'] eqn:Hloop;
             [apply (for_of_publish_audio_returned env (FileShare.audio_options s) _ _ _ [])
                in Hloop; [subst w'|reflexivity]
             | discriminate Hrun]
       end.
  all: run_in Hrun; destruct (onTrackPublished options); run_in Hrun;
    injection Hrun as <-; unfold audible_element;
    cbn [hook videoElement log FileShare.videoTrackRef FileShare.audioTracksRef paused
         el_currentTime el_duration el_playbackRate app map];
    rewrite <- ?app_assoc; cbn [app]; rewrite ?app_nil_r; reflexivity.
Qed.

(** However the [try] block of [startSharing] ends, the element is left
    unmuted at full volume; when the block returns, it is playing. *)
Lemma startSharing_try_element (env : Env) (options : Callbacks) (el : HTMLVideoElement)
    (w w1 : World FileShare.Hook) (r : Result unit) :
  FileShare.startSharing_try env options el w = (r, w1) ->
  exists p, videoElement w1 = Some (audible_element p el)
            /\ (r = Returned tt -> p = false).
Proof.
  destruct r as [[]|err].
  - intros Hrun. apply startSharing_try_returned in Hrun as (s & ->).
    exists false. split; reflexivity.
  - destruct w as [[sh ld er vt ats sr] e0 lg], el as [pz mu ct du vo pr]. intros Hrun.
    unfold FileShare.startSharing_try in Hrun. run_in Hrun.
    destruct pz; [destruct (play_settles env lg) as [|err0]|].
    2: { injection Hrun as <- <-. eexists. split; [reflexivity|discriminate]. }
    all: match type of Hrun with
         | context [captureStream_returns ?e ?l] =>
             destruct (captureStream_returns e l) as [s|err0]
         end.
    2, 4: injection Hrun as <- <-; eexists; split; [reflexivity|discriminate].
    all: destruct (getVideoTracks s) as [|v vs] eqn:Hv.
    all: try match type of Hrun with
         | context [publishTrack_settles ?e ?l ?t ?o] =>
             destruct (publishTrack_settles e l t o) as [|err0]
         end.
    all: destruct (getAudioTracks s) as [|a ts] eqn:Ha.
    all: try match type of Hrun with
         | context [for_of ?xs ?body ?W] =>
             destruct (for_of xs body W) as [r' w'] eqn:Hloop;
             apply (for_of_publish_audio env (FileShare.audio_options s) _ _ _ []) in Hloop;
               [|reflexivity];
             destruct Hloop as (pubs & delta & -> & _ & _ & _);
             destruct r' as [[]|err']; run_in Hrun
         end.
    all: try (destruct (onTrackPublished options); run_in Hrun; discriminate Hrun).
    all: injection Hrun as <- <-; eexists; split; [reflexivity|discriminate].
Qed.

(** ** The engine: what its calls guarantee for any room *)

Lemma reported_errors_app (l l' : list Event) :
  reported_errors (l ++ l') = reported_errors l ++ reported_errors l'.
Proof. apply omap_app. Qed.

Lemma reported_errors_filter (l : list Event) :
  reported_errors (List.filter is_onError l) = reported_errors l.
Proof.
  induction l as [|ev l IH]; [reflexivity|].
  destruct ev; cbn [List.filter is_onError]; try exact IH.
  change (reported_errors (EvOnError e :: ?x)) with (e :: reported_errors x).
  rewrite IH. reflexivity.
Qed.

Lemma reported_errors_none (l : list Event) :
  List.filter is_onError l = [] -> reported_errors l = [].
Proof. intros Hl. rewrite <- reported_errors_filter, Hl. reflexivity. Qed.

(** The start of [startSharing], for any room: on a bound element and an
    engine that is not sharing it runs the [try] block, then either ends
    (the block returned) or reports the failure and runs [stopSharing]. *)
Lemma startSharing_unfold (env : Env) (options : Callbacks) (w : World FileShare.Hook)
    (el : HTMLVideoElement) :
  videoElement w = Some el ->
  FileShare.isSharing (hook w) = false ->
  FileShare.startSharing env options w
  = match FileShare.startSharing_try env options el w with
    | (Returned _, w1) => modify_hook (FileShare.setIsLoading false) w1
    | (Threw err, w1) =>
        let e := as_Error err "Failed to start sharing" in
        let w2 := mkWorld (FileShare.setError (Some e) (hook w1)) (videoElement w1)
                    (log w1 ++ (if onError options then [EvOnError e] else [])) in
        match FileShare.stopSharing env options w2 with
        | (_, w3) => modify_hook (FileShare.setIsLoading false) w3
        end
    end.
Proof.
  destruct w as [[sh ld er vt ats sr] e0 lg].
  cbn [videoElement hook FileShare.isSharing]. intros -> ->.
  unfold FileShare.startSharing. run.
  destruct (FileShare.startSharing_try env options el _)
    as [[[]|err] [[sh1 ld1 er1 vt1 ats1 sr1] e1 l1]]; [reflexivity|].
  unfold FileShare.startSharing_catch. run.
  destruct (onError options); run; rewrite ?app_nil_r.
  all: match goal with
       | |- context [FileShare.stopSharing ?e ?o ?W] =>
           destruct (stopSharing_run e o W) as (w3 & delta & Hstop & _);
           rewrite Hstop; reflexivity
       end.
Qed.

(** Both calls always return: no failure of the room or of the element
    escapes them.  [stopSharing] leaves [isLoading] false; so does
    [startSharing] when it goes past its guards, and otherwise it does not
    touch the flag. *)
Theorem sharing_calls_always_return (env : Env) (options : Callbacks)
    (w : World FileShare.Hook) :
  fst (FileShare.stopSharing env options w) = Returned tt
  /\ FileShare.isLoading (hook (snd (FileShare.stopSharing env options w))) = false
  /\ fst (FileShare.startSharing env options w) = Returned tt
  /\ FileShare.isLoading (hook (snd (FileShare.startSharing env options w)))
     = (if start_proceeds w then false else FileShare.isLoading (hook w)).
Proof.
  destruct (stopSharing_run env options w) as (w' & delta & Hstop & _ & _ & Hload & _).
  rewrite Hstop. split; [reflexivity|]. split; [exact Hload|].
  unfold start_proceeds.
  destruct (videoElement w) as [el|] eqn:Hel.
  - destruct (FileShare.isSharing (hook w)) eqn:Hsh.
    + unfold FileShare.startSharing. destruct w as [[sh ld er vt ats sr] e0 lg].
      cbn in Hel, Hsh. subst. run. split; reflexivity.
    + rewrite (startSharing_unfold env options w el Hel Hsh).
      destruct (FileShare.startSharing_try env options el w) as [[[]|err] w1].
      * split; reflexivity.
      * cbv zeta.
        match goal with
        | |- context [FileShare.stopSharing ?e ?o ?W] =>
            destruct (stopSharing_run e o W) as (w3 & d3 & Hstop3 & _); rewrite Hstop3
        end.
        split; reflexivity.
  - unfold FileShare.startSharing. destruct w as [[sh ld er vt ats sr] e0 lg].
    cbn in Hel. subst. run. destruct (onError options); split; reflexivity.
Qed.

(** [stopSharing] is all or nothing for the stream and the audio handles.
    Either no unpublish call was rejected: the stored error is untouched,
    [isSharing] is false and the stream and the audio list are dropped.  Or
    one was rejected: it is stored as the error, no track was stopped, the
    element was not paused, and [isSharing], the stream and the whole audio
    list (the handles already unpublished too) are as before. *)
Theorem stopSharing_all_or_nothing (env : Env) (options : Callbacks)
    (w : World FileShare.Hook) :
  let w' := snd (FileShare.stopSharing env options w) in
  let delta := new_events (log w) (log w') in
  (rejected_unpublishes delta = []
   /\ FileShare.error (hook w') = FileShare.error (hook w)
   /\ FileShare.isSharing (hook w') = false
   /\ FileShare.audioTracksRef (hook w') = None
   /\ FileShare.streamRef (hook w') = None)
  \/ (exists err,
        rejected_unpublishes delta = [err]
        /\ FileShare.error (hook w') = Some (as_Error err "Failed to stop sharing")
        /\ List.filter is_track_stop delta = []
        /\ FileShare.isSharing (hook w') = FileShare.isSharing (hook w)
        /\ FileShare.audioTracksRef (hook w') = FileShare.audioTracksRef (hook w)
        /\ FileShare.streamRef (hook w') = FileShare.streamRef (hook w)
        /\ videoElement w' = videoElement w).
Proof.
  destruct (stopSharing_run env options w)
    as (w' & delta & Hstop & Hlog & _ & _ & _ & [Hdone | (err & Hfail)]);
    rewrite Hstop; cbn [snd]; rewrite Hlog, new_events_app.
  - left. destruct Hdone as (? & ? & ? & ? & ? & ? & ?). repeat split; assumption.
  - right. exists err. destruct Hfail as (? & ? & ? & ? & ? & ? & ? & ?).
    repeat split; assumption.
Qed.

(** [stopSharing] keeps the history and adds teardown calls only: it never
    publishes, never starts playback and never captures. *)
Theorem stopSharing_teardown_only (env : Env) (options : Callbacks)
    (w : World FileShare.Hook) :
  exists delta,
    log (snd (FileShare.stopSharing env options w)) = log w ++ delta
    /\ forallb teardown_event delta = true
    /\ List.filter is_publish delta = [].
Proof.
  destruct (stopSharing_run env options w) as (w' & delta & Hstop & Hlog & Htear & _).
  rewrite Hstop. exists delta. split; [exact Hlog|]. split; [exact Htear|].
  clear -Htear. induction delta as [|ev delta IH]; [reflexivity|].
  cbn in Htear. apply andb_true_iff in Htear as [Hev Hdelta].
  destruct ev; try discriminate Hev; cbn; apply IH, Hdelta.
Qed.

(** On a bound element and an engine that is not sharing, the state after
    [startSharing] is sharing exactly when it stores no error. *)
Lemma startSharing_sharing_iff_no_error_aux (env : Env) (options : Callbacks)
    (w : World FileShare.Hook) (el : HTMLVideoElement)
    (Hel : videoElement w = Some el)
    (Hnot : FileShare.isSharing (hook w) = false) :
  FileShare.isSharing (hook (snd (FileShare.startSharing env options w))) = true
  <-> FileShare.error (hook (snd (FileShare.startSharing env options w))) = None.
Proof.
  rewrite (startSharing_unfold env options w el Hel Hnot).
  destruct (FileShare.startSharing_try env options el w) as [[[]|err] w1] eqn:Htry.
  - apply startSharing_try_returned in Htry as (s & ->). cbn. split; reflexivity.
  - apply startSharing_try_run in Htry as (d & _ & _ & _ & _ & Hsh & _).
    cbv zeta.
    match goal with
    | |- context [FileShare.stopSharing ?e ?o ?W] =>
        destruct (stopSharing_run e o W)
          as (w3 & d3 & Hstop & _ & _ & _ & _ & [Hdone | (err3 & Hfail)]);
        rewrite Hstop
    end.
    + destruct Hdone as (_ & _ & Herr & Hsh3 & _).
      destruct w3 as [[sh3 ld3 er3 vt3 ats3 sr3] e3 l3]. cbn in *. subst.
      split; discriminate.
    + destruct Hfail as (_ & _ & _ & Herr & Hsh3 & _).
      destruct w3 as [[sh3 ld3 er3 vt3 ats3 sr3] e3 l3], w1 as [[sh1 ld1 er1 vt1 ats1 sr1] e1 l1].
      cbn in *. subst. rewrite Hnot. split; discriminate.
Qed.

(** On a bound element and an engine that is not sharing, [startSharing]
    ends sharing exactly when it ends with no stored error. *)
Theorem startSharing_sharing_iff_no_error (env : Env) (options : Callbacks)
    (w : World FileShare.Hook) (el : HTMLVideoElement)
    (Hel : videoElement w = Some el)
    (Hnot : FileShare.isSharing (hook w) = false) :
  let w' := snd (FileShare.startSharing env options w) in
  FileShare.isSharing (hook w') = true <-> FileShare.error (hook w') = None.
Proof. exact (startSharing_sharing_iff_no_error_aux env options w el Hel Hnot). Qed.

Lemma startSharing_sharing_iff_no_error_witness :
  FileShare.isSharing (hook ex_failed_start) = true
  <-> FileShare.error (hook ex_failed_start) = None.
Proof.
  exact (startSharing_sharing_iff_no_error ex_env_room_lost ex_callbacks ex_idle
           ex_loaded_element eq_refl eq_refl).
Defined.

(** When the caller supplied [onError], the error the hook stores is the
    last one it reported: after [stopSharing] it is the last error reported
    by the call, or the previous one if the call reported none; after a
    [startSharing] on an engine that was not sharing it is the last error
    reported by the call, and none if the call reported none. *)
Theorem stored_error_is_last_reported (env : Env) (options : Callbacks)
    (w : World FileShare.Hook)
    (Hcallback : onError options = true)
    (Hnot : FileShare.isSharing (hook w) = false) :
  let stopped := snd (FileShare.stopSharing env options w) in
  let started := snd (FileShare.startSharing env options w) in
  FileShare.error (hook stopped)
  = match last (reported_errors (new_events (log w) (log stopped))) with
    | Some e => Some e
    | None => FileShare.error (hook w)
    end
  /\ FileShare.error (hook started)
     = last (reported_errors (new_events (log w) (log started))).
Proof.
  split.
  - destruct (stopSharing_run env options w)
      as (w' & delta & Hstop & Hlog & _ & _ & _ & [Hdone | (err & Hfail)]);
      rewrite Hstop; cbn [snd]; rewrite Hlog, new_events_app.
    + destruct Hdone as (_ & Hnone & Herr & _).
      rewrite (reported_errors_none _ Hnone). exact Herr.
    + destruct Hfail as (_ & Hrep & _ & Herr & _). rewrite Hcallback in Hrep.
      rewrite <- reported_errors_filter, Hrep. exact Herr.
  - destruct (videoElement w) as [el|] eqn:Hel.
    + rewrite (startSharing_unfold env options w el Hel Hnot).
      destruct (FileShare.startSharing_try env options el w) as [[[]|err] w1] eqn:Htry.
      * apply startSharing_try_run in Htry as (d & Hlog & Hnone & Herr & _).
        cbn. rewrite Hlog, new_events_app, (reported_errors_none _ Hnone). exact Herr.
      * apply startSharing_try_run in Htry as (d & Hlog & Hnone & _).
        cbv zeta. rewrite Hcallback.
        match goal with
        | |- context [FileShare.stopSharing ?e ?o ?W] =>
            destruct (stopSharing_run e o W)
              as (w3 & d3 & Hstop & Hlog3 & _ & _ & _ & [Hdone | (err3 & Hfail)]);
            rewrite Hstop
        end.
        -- destruct Hdone as (_ & Hnone3 & Herr3 & _).
           cbn in Hlog3, Herr3 |- *. rewrite Hlog3, Hlog, <- !app_assoc, new_events_app.
           rewrite !reported_errors_app, (reported_errors_none _ Hnone),
             (reported_errors_none _ Hnone3), app_nil_r.
           exact Herr3.
        -- destruct Hfail as (_ & Hrep & _ & Herr3 & _). rewrite Hcallback in Hrep.
           cbn in Hlog3, Herr3 |- *. rewrite Hlog3, Hlog, <- !app_assoc, new_events_app.
           rewrite !reported_errors_app, (reported_errors_none _ Hnone).
           rewrite <- (reported_errors_filter d3), Hrep. exact Herr3.
    + unfold FileShare.startSharing. destruct w as [[sh ld er vt ats sr] e0 lg].
      cbn in Hel. subst. run. rewrite Hcallback. run. rewrite new_events_app. reflexivity.
Qed.

Lemma stored_error_is_last_reported_witness :
  FileShare.error (hook ex_failed_start)
  = last (reported_errors (new_events (log ex_idle) (log ex_failed_start))).
Proof.
  exact (proj2 (stored_error_is_last_reported ex_env_room_lost ex_callbacks ex_idle
                  eq_refl eq_refl)).
Defined.

(** A second [startSharing] after one that succeeded does nothing, whatever
    the room would answer. *)
Theorem startSharing_again_is_noop (env env' : Env) (options options' : Callbacks)
    (w : World FileShare.Hook) (el : HTMLVideoElement)
    (Hel : videoElement w = Some el)
    (Hnot : FileShare.isSharing (hook w) = false)
    (Hok : FileShare.error (hook (snd (FileShare.startSharing env options w))) = None) :
  let w' := snd (FileShare.startSharing env options w) in
  FileShare.startSharing env' options' w' = (Returned tt, w').
Proof.
  pose proof (startSharing_sharing_iff_no_error_aux env options w el Hel Hnot) as Hiff.
  cbv zeta in *. apply Hiff in Hok.
  assert (Hbound : videoElement (snd (FileShare.startSharing env options w)) <> None).
  { rewrite (startSharing_unfold env options w el Hel Hnot) in Hok |- *.
    destruct (FileShare.startSharing_try env options el w) as [[[]|err] w1] eqn:Htry.
    - apply startSharing_try_returned in Htry as (s & ->). discriminate.
    - apply startSharing_try_run in Htry as (d & _ & _ & _ & _ & Hsh & _).
      exfalso. revert Hok. cbv zeta.
      match goal with
      | |- context [FileShare.stopSharing ?e ?o ?W] =>
          destruct (stopSharing_run e o W)
            as (w3 & d3 & Hstop & _ & _ & _ & _ & [Hdone | (err3 & Hfail)]);
          rewrite Hstop
      end.
      + destruct Hdone as (_ & _ & _ & Hsh3 & _).
        destruct w3 as [[sh3 ld3 er3 vt3 ats3 sr3] e3 l3]. cbn in *. subst. discriminate.
      + destruct Hfail as (_ & _ & _ & _ & Hsh3 & _).
        destruct w3 as [[sh3 ld3 er3 vt3 ats3 sr3] e3 l3],
                 w1 as [[sh1 ld1 er1 vt1 ats1 sr1] e1 l1].
        cbn in *. subst. rewrite Hnot. discriminate. }
  destruct (snd (FileShare.startSharing env options w)) as [[sh ld er vt ats sr] [e1|] l1];
    [|contradiction Hbound; reflexivity].
  cbn in Hok. subst sh. reflexivity.
Qed.

Lemma startSharing_again_is_noop_witness :
  FileShare.startSharing ex_env_room_lost ex_callbacks ex_sharing = (Returned tt, ex_sharing).
Proof.
  exact (startSharing_again_is_noop ex_env_ok ex_env_room_lost ex_callbacks ex_callbacks
           ex_idle ex_loaded_element eq_refl eq_refl eq_refl).
Defined.

(** Once [startSharing] is past its guards it leaves the element unmuted
    and at full volume, however the call ends; the position, duration and
    rate are untouched, and when the call stored no error the element is
    playing. *)
Theorem startSharing_leaves_element_audible (env : Env) (options : Callbacks)
    (w : World FileShare.Hook) (el : HTMLVideoElement)
    (Hel : videoElement w = Some el)
    (Hnot : FileShare.isSharing (hook w) = false) :
  let w' := snd (FileShare.startSharing env options w) in
  exists p,
    videoElement w' = Some (audible_element p el)
    /\ (FileShare.error (hook w') = None -> p = false).
Proof.
  cbv zeta. rewrite (startSharing_unfold env options w el Hel Hnot).
  destruct (FileShare.startSharing_try env options el w) as [[[]|err] w1] eqn:Htry.
  - apply startSharing_try_returned in Htry as (s & ->).
    exists false. split; reflexivity.
  - apply startSharing_try_element in Htry as (p & Hp & _).
    cbv zeta.
    match goal with
    | |- context [FileShare.stopSharing ?e ?o ?W] =>
        destruct (stopSharing_run e o W)
          as (w3 & d3 & Hstop & _ & _ & _ & _ & [Hdone | (err3 & Hfail)]);
        rewrite Hstop
    end.
    + destruct Hdone as (_ & _ & Herr & _ & _ & _ & Helem).
      cbn in Helem, Herr |- *. rewrite Hp in Helem.
      exists true. split; [exact Helem|]. rewrite Herr. discriminate.
    + destruct Hfail as (_ & _ & _ & Herr & _ & _ & _ & Helem).
      cbn in Helem |- *. rewrite Hp in Helem.
      exists p. split; [exact Helem|]. rewrite Herr. discriminate.
Qed.

Lemma startSharing_leaves_element_audible_witness :
  exists p, videoElement ex_failed_start = Some (audible_element p ex_loaded_element)
            /\ (FileShare.error (hook ex_failed_start) = None -> p = false).
Proof.
  exact (startSharing_leaves_element_audible ex_env_room_lost ex_callbacks ex_idle
           ex_loaded_element eq_refl eq_refl).
Defined.

Lemma published_tracks_app (l l' : list Event) :
  published_tracks (l ++ l') = published_tracks l ++ published_tracks l'.
Proof. apply omap_app. Qed.

Lemma unpublished_tracks_app (l l' : list Event) :
  unpublished_tracks (l ++ l') = unpublished_tracks l ++ unpublished_tracks l'.
Proof. apply omap_app. Qed.

Lemma stopped_tracks_app (l l' : list Event) :
  stopped_tracks (l ++ l') = stopped_tracks l ++ stopped_tracks l'.
Proof. apply omap_app. Qed.

Lemma published_tracks_resolved (o : TrackPublishOptions) (ts : list MediaStreamTrack) :
  published_tracks (map (fun t => EvPublishTrack t o Resolved) ts) = ts.
Proof.
  induction ts as [|t ts IH]; [reflexivity|].
  change (published_tracks (map ?f (t :: ts))) with (t :: published_tracks (map f ts)).
  rewrite IH. reflexivity.
Qed.

Lemma unpublished_tracks_resolved (ts : list MediaStreamTrack) :
  unpublished_tracks (map (fun t => EvUnpublishTrack t Resolved) ts) = ts
  /\ stopped_tracks (map (fun t => EvUnpublishTrack t Resolved) ts) = []
  /\ rejected_unpublishes (map (fun t => EvUnpublishTrack t Resolved) ts) = [].
Proof.
  induction ts as [|t ts (IH & IH' & IH'')]; [repeat split|].
  split; [|split; [exact IH' | exact IH'']].
  change (unpublished_tracks (map ?f (t :: ts))) with (t :: unpublished_tracks (map f ts)).
  rewrite IH. reflexivity.
Qed.

Lemma stopped_tracks_track_stop (ts : list MediaStreamTrack) :
  stopped_tracks (map EvTrackStop ts) = ts
  /\ unpublished_tracks (map EvTrackStop ts) = [].
Proof.
  induction ts as [|t ts (IH & IH')]; [repeat split|].
  split; [|exact IH'].
  change (stopped_tracks (map ?f (t :: ts))) with (t :: stopped_tracks (map f ts)).
  rewrite IH. reflexivity.
Qed.

Lemma omap_track_publication_of (o : TrackPublishOptions) (ts : list MediaStreamTrack) :
  omap track (map (publication_of o) ts) = ts.
Proof. induction ts as [|t ts IH]; [reflexivity | cbn; rewrite IH; reflexivity]. Qed.

Lemma published_tracks_cons (ev : Event) (l : list Event) :
  published_tracks (ev :: l)
  = match ev with
    | EvPublishTrack t _ Resolved => t :: published_tracks l
    | _ => published_tracks l
    end.
Proof. destruct ev as [| | |t o [|err]| | | | |]; reflexivity. Qed.

Lemma unpublished_tracks_cons (ev : Event) (l : list Event) :
  unpublished_tracks (ev :: l)
  = match ev with
    | EvUnpublishTrack t _ => t :: unpublished_tracks l
    | _ => unpublished_tracks l
    end.
Proof. destruct ev; reflexivity. Qed.

Lemma stopped_tracks_cons (ev : Event) (l : list Event) :
  stopped_tracks (ev :: l)
  = match ev with
    | EvTrackStop t => t :: stopped_tracks l
    | _ => stopped_tracks l
    end.
Proof. destruct ev; reflexivity. Qed.

(** Bring the tracks observed in a log made of pieces to their value. *)
Ltac norm_tracks :=
  repeat first
    [ rewrite published_tracks_app | rewrite unpublished_tracks_app
    | rewrite stopped_tracks_app | rewrite rejected_unpublishes_app
    | rewrite published_tracks_resolved
    | rewrite published_tracks_cons | rewrite unpublished_tracks_cons
    | rewrite stopped_tracks_cons | rewrite rejected_unpublishes_cons
    | rewrite omap_track_publication_of
    | match goal with
      | |- context [map (fun t => EvUnpublishTrack t Resolved) ?l] =>
          destruct (unpublished_tracks_resolved l) as (Hun & Hst & Hrej);
          rewrite ?Hun, ?Hst, ?Hrej; clear Hun Hst Hrej
      | |- context [map EvTrackStop ?l] =>
          destruct (stopped_tracks_track_stop l) as (Hst & Hun);
          rewrite ?Hun, ?Hst, ?rejected_unpublishes_track_stop; clear Hun Hst
      end ];
  change (published_tracks []) with (@nil MediaStreamTrack);
  change (unpublished_tracks []) with (@nil MediaStreamTrack);
  change (stopped_tracks []) with (@nil MediaStreamTrack);
  change (rejected_unpublishes []) with (@nil Thrown);
  cbn [app]; rewrite ?app_nil_r.

(** Start, then stop.  After a [startSharing] that stored no error, on an
    engine that held no handle, a [stopSharing] in which no unpublish call
    fails hands to [unpublishTrack] exactly the tracks whose publish call
    resolved, once each and in the same order, stops every track of the
    captured stream, and brings the hook back to its initial state. *)
Theorem start_then_stop_unpublishes_what_was_published (env env' : Env)
    (options options' : Callbacks) (w : World FileShare.Hook) (el : HTMLVideoElement)
    (Hel : videoElement w = Some el)
    (Hnot : FileShare.isSharing (hook w) = false)
    (Hvideo : FileShare.videoTrackRef (hook w) = None)
    (Haudio : FileShare.audioTracksRef (hook w) = None)
    (Hok : FileShare.error (hook (snd (FileShare.startSharing env options w))) = None)
    (Hunpublish : forall l t, unpublishTrack_settles env' l t = Resolved) :
  let w1 := snd (FileShare.startSharing env options w) in
  let w2 := snd (FileShare.stopSharing env' options' w1) in
  unpublished_tracks (new_events (log w1) (log w2))
  = published_tracks (new_events (log w) (log w1))
  /\ rejected_unpublishes (new_events (log w1) (log w2)) = []
  /\ (exists s, FileShare.streamRef (hook w1) = Some s
                /\ stopped_tracks (new_events (log w1) (log w2)) = getTracks s)
  /\ hook w2 = FileShare.initial.
Proof.
  cbv zeta. revert Hok. rewrite (startSharing_unfold env options w el Hel Hnot).
  destruct (FileShare.startSharing_try env options el w) as [[[]|err] w1] eqn:Htry.
  - intros _. apply startSharing_try_returned in Htry as (s & ->).
    rewrite Hvideo, Haudio. destruct el as [pz mu ct du vo pr]. run.
    rewrite (stopSharing_unpublish_resolved env' options' Hunpublish).
    cbn [snd hook videoElement log FileShare.error FileShare.videoTrackRef
         FileShare.isSharing FileShare.audioTracksRef FileShare.streamRef].
    rewrite !new_events_app.
    unfold FileShare.stop_events, start_events, FileShare.expected_publishes,
      FileShare.retained_handles.
    cbn [hook videoElement FileShare.videoTrackRef FileShare.audioTracksRef
         FileShare.streamRef].
    change (mkOptions "shared-video-file" ScreenShare (Some false) (Some (id s)))
      with (FileShare.video_options s).
    change (mkOptions "shared-video-audio" Unknown None (Some (id s)))
      with (FileShare.audio_options s).
    destruct (getVideoTracks s) as [|v vs], (getAudioTracks s) as [|a ts],
      (onTrackUnpublished options'), (onTrackPublished options), pz;
      cbn [app omap list_omap track publication_of map FileShare.has_track];
      norm_tracks;
      (split; [reflexivity|]); (split; [reflexivity|]);
      (split; [exists s; split; reflexivity | reflexivity]).
  - intros Hok. exfalso. revert Hok. cbv zeta.
    match goal with
    | |- context [FileShare.stopSharing ?e ?o ?W] =>
        destruct (stopSharing_run e o W)
          as (w3 & d3 & Hstop & _ & _ & _ & _ & [Hdone | (err3 & Hfail)]);
        rewrite Hstop
    end.
    + destruct Hdone as (_ & _ & Herr & _). cbn in Herr |- *. rewrite Herr. discriminate.
    + destruct Hfail as (_ & _ & _ & Herr & _). cbn. rewrite Herr. discriminate.
Qed.

Lemma start_then_stop_unpublishes_what_was_published_witness :
  unpublished_tracks
    (new_events (log ex_sharing)
       (log (snd (FileShare.stopSharing ex_env_ok ex_callbacks ex_sharing))))
  = [ex_video_track; ex_audio_track; ex_audio_track']
  /\ hook (snd (FileShare.stopSharing ex_env_ok ex_callbacks ex_sharing)) = FileShare.initial.
Proof.
  destruct (start_then_stop_unpublishes_what_was_published ex_env_ok ex_env_ok
              ex_callbacks ex_callbacks ex_idle ex_loaded_element
              eq_refl eq_refl eq_refl eq_refl eq_refl (fun _ _ => eq_refl))
    as (Hun & _ & _ & Hhook).
  split; [exact (eq_trans Hun eq_refl) | exact Hhook].
Defined.

Lemma teardown_no_start_calls (l : list Event) :
  forallb teardown_event l = true ->
  List.filter is_publish l = [] /\ ~ In (EvCaptureStream 30) l.
Proof.
  induction l as [|ev l IH]; [split; [reflexivity | intros []]|].
  cbn. intros [Hev Hl]%andb_true_iff. destruct (IH Hl) as [Hp Hc].
  destruct ev; try discriminate Hev; cbn; (split; [exact Hp|]);
    intros [Heq|Hin]; (discriminate Heq || exact (Hc Hin)).
Qed.



(** With no element bound, [startSharing] only stores and reports "Video
    element not ready": it does so even on an engine that is sharing, makes
    no call to the room and touches no other state.  Both versions of the
    hook. *)
Theorem startSharing_element_not_ready (env : Env) (options : Callbacks)
    (w : World FileShare.Hook) (v : World FileShareSingle.Hook)
    (Hw : videoElement w = None) (Hv : videoElement v = None) :
  let e := mkError "Video element not ready" in
  let reported := if onError options then [EvOnError e] else [] in
  FileShare.startSharing env options w
  = (Returned tt, mkWorld (FileShare.setError (Some e) (hook w)) None (log w ++ reported))
  /\ FileShareSingle.startSharing env options v
     = (Returned tt,
        mkWorld (FileShareSingle.setError (Some e) (hook v)) None (log v ++ reported)).
Proof.
  destruct w as [hw ew lw], v as [hv ev lv]. cbn in Hw, Hv. subst ew ev.
  unfold FileShare.startSharing, FileShareSingle.startSharing.
  destruct hw, hv. run.
  destruct (onError options); run; rewrite ?app_nil_r; split; reflexivity.
Qed.

Lemma startSharing_element_not_ready_witness :
  FileShare.error
    (hook (snd (FileShare.startSharing ex_env_ok ex_callbacks ex_unbound)))
  = Some (mkError "Video element not ready")
  /\ FileShareSingle.error
       (hook (snd (FileShareSingle.startSharing ex_env_ok ex_callbacks ex_unbound_single)))
     = Some (mkError "Video element not ready").
Proof.
  destruct (startSharing_element_not_ready ex_env_ok ex_callbacks ex_unbound
              ex_unbound_single eq_refl eq_refl) as [Hw Hv].
  rewrite Hw, Hv. split; reflexivity.
Defined.

(** ** The engine: an invariant of its reachable states *)

Lemma handles_tracked_shrink (h h' : FileShare.Hook) :
  FileShare.handles_tracked h = true ->
  FileShare.videoTrackRef h' = FileShare.videoTrackRef h
  \/ FileShare.videoTrackRef h' = None ->
  FileShare.audioTracksRef h' = FileShare.audioTracksRef h
  \/ FileShare.audioTracksRef h' = None ->
  FileShare.handles_tracked h' = true.
Proof.
  destruct h as [sh ld er vt ats sr], h' as [sh' ld' er' vt' ats' sr'].
  rewrite !handles_tracked_fields. cbn.
  intros [Hv Ha]%andb_true_iff [->| ->] [->| ->]; apply andb_true_iff; split;
    assumption || reflexivity.
Qed.

(** In every state the engine can reach, no call is under way
    ([isLoading] is false), every retained handle carries its track, and a
    sharing engine retains its captured stream. *)
Theorem reachable_engine_invariant (w : World FileShare.Hook)
    (Hreach : FileShare_reachable w) :
  FileShare.isLoading (hook w) = false
  /\ FileShare.handles_tracked (hook w) = true
  /\ (FileShare.isSharing (hook w) = true -> FileShare.streamRef (hook w) <> None).
Proof.
  induction Hreach as [el|env options w Hreach (Hload & Htr & Hstream)
                         |env options w Hreach (Hload & Htr & Hstream)
                         |el w Hreach IH].
  - repeat split. discriminate.
  - destruct (videoElement w) as [el|] eqn:Hel;
      [destruct (FileShare.isSharing (hook w)) eqn:Hsh|].
    + unfold FileShare.startSharing. destruct w as [[sh ld er vt ats sr] e0 lg].
      cbn in Hel, Hsh. subst. run. repeat split; assumption.
    + rewrite (startSharing_unfold env options w el Hel Hsh).
      destruct (FileShare.startSharing_try env options el w) as [[[]|err] w1] eqn:Htry;
        apply startSharing_try_run in Htry as (d & _ & _ & _ & Htr1 & Hr);
        specialize (Htr1 Htr).
      * destruct Hr as (_ & s & Hs & _).
        destruct w1 as [[sh1 ld1 er1 vt1 ats1 sr1] e1 l1]. cbn in *.
        split; [reflexivity|]. split; [exact Htr1|]. intros _. rewrite Hs. discriminate.
      * destruct Hr as (Hsh1 & _). cbv zeta.
        match goal with
        | |- context [FileShare.stopSharing ?e ?o ?W] =>
            destruct (stopSharing_run e o W)
              as (w3 & d3 & Hstop & _ & _ & _ & Hv3 & Hcases);
            rewrite Hstop
        end.
        destruct w1 as [[sh1 ld1 er1 vt1 ats1 sr1] e1 l1],
                 w3 as [[sh3 ld3 er3 vt3 ats3 sr3] e3 l3].
        cbn in Hsh1, Hv3, Hcases, Htr1 |- *. rewrite Hsh in Hsh1. subst sh1.
        split; [reflexivity|].
        split.
        -- apply (handles_tracked_shrink
                    (FileShare.mkHook false ld1
                       (Some (as_Error err "Failed to start sharing")) vt1 ats1 sr1));
             [exact Htr1 | exact Hv3 |].
           destruct Hcases as [(_ & _ & _ & _ & Ha & _) | (e3' & _ & _ & _ & _ & _ & Ha & _)];
             [right; exact Ha | left; exact Ha].
        -- destruct Hcases as [(_ & _ & _ & Hs3 & _) | (e3' & _ & _ & _ & _ & Hs3 & _)];
             rewrite Hs3; intros Hf; discriminate Hf.
    + unfold FileShare.startSharing. destruct w as [[sh ld er vt ats sr] e0 lg].
      cbn in Hel. subst. run. destruct (onError options); repeat split; assumption.
  - destruct (stopSharing_run env options w)
      as (w' & d & Hstop & _ & _ & Hload' & Hv' & Hcases).
    rewrite Hstop. cbn [snd]. split; [exact Hload'|]. split.
    + apply (handles_tracked_shrink (hook w)); [exact Htr | exact Hv' |].
      destruct Hcases as [(_ & _ & _ & _ & Ha & _) | (e' & _ & _ & _ & _ & _ & Ha & _)];
        [right; exact Ha | left; exact Ha].
    + destruct Hcases as [(_ & _ & _ & Hs & _) | (e' & _ & _ & _ & _ & Hs & _ & Hsr & _)].
      * rewrite Hs. intros Hf. discriminate Hf.
      * rewrite Hs, Hsr. exact Hstream.
  - exact IH.
Qed.

Lemma reachable_engine_invariant_witness :
  FileShare.isLoading (hook ex_failed_start) = false
  /\ FileShare.handles_tracked (hook ex_failed_start) = true
  /\ (FileShare.isSharing (hook ex_failed_start) = true ->
      FileShare.streamRef (hook ex_failed_start) <> None).
Proof.
  apply (reachable_engine_invariant ex_failed_start).
  apply (FileShare_reachable_start ex_env_room_lost ex_callbacks ex_idle).
  apply (FileShare_reachable_initial (Some ex_loaded_element)).
Defined.

(** ** The single-audio draft of the engine *)

(** Every way the single-audio [stopSharing] can go: it always returns,
    after teardown calls only, and a stored error stays stored. *)
Lemma single_stopSharing_run (env : Env) (options : Callbacks)
    (w : World FileShareSingle.Hook) :
  exists w' delta,
    FileShareSingle.stopSharing env options w = (Returned tt, w')
    /\ log w' = log w ++ delta
    /\ forallb teardown_event delta = true
    /\ FileShareSingle.isLoading (hook w') = false
    /\ (FileShareSingle.error (hook w) <> None -> FileShareSingle.error (hook w') <> None)
    /\ (FileShareSingle.isSharing (hook w) = false ->
        FileShareSingle.isSharing (hook w') = false).
Proof.
  destruct w as [[sh ld er vt at_ sr] el lg].
  unfold FileShareSingle.stopSharing, FileShareSingle.stopSharing_try. run.
  destruct vt as [p|];
    [destruct (track p) as [t|] eqn:Htrack;
       [destruct (unpublishTrack_settles env lg t) as [|err]|]|].
  all: run.
  all: try (destruct at_ as [q|];
    [destruct (track q) as [t'|] eqn:Htrack';
       [match goal with
        | |- context [unpublishTrack_settles ?e ?l ?x] =>
            destruct (unpublishTrack_settles e l x) as [|err']
        end|]|]).
  all: run.
  all: try (destruct sr as [s|];
    [ pose proof (fun w => for_of_track_stop (H:=FileShareSingle.Hook) (getTracks s) w)
        as Hstop;
      run_in Hstop; rewrite Hstop; run | ]).
  all: destruct (onTrackUnpublished options), (onError options), el as [el|]; run.
  all: eexists _, _; (split; [reflexivity|]);
    cbn [hook log videoElement FileShareSingle.isLoading FileShareSingle.error
         FileShareSingle.isSharing].
  all: split; [first [rewrite <- ?app_assoc; reflexivity | symmetry; apply app_nil_r]|].
  all: split; [norm_log; reflexivity|].
  all: split; [reflexivity|].
  all: split; [intros Her; first [exact Her | discriminate]|].
  all: intros Hsh; first [exact Hsh | reflexivity].
Qed.

(** Every way the single-audio [startSharing] can go past its guards: it
    returns, it made at most two publish calls, and when it stored no error
    the engine is sharing and the publish calls are the first video track
    and the first audio track of the captured stream. *)
Lemma single_startSharing_run (env : Env) (options : Callbacks)
    (w : World FileShareSingle.Hook) (el : HTMLVideoElement)
    (Helement : videoElement w = Some el)
    (Hnot_sharing : FileShareSingle.isSharing (hook w) = false) :
  exists w1,
    FileShareSingle.startSharing env options w = (Returned tt, w1)
    /\ length (List.filter is_publish (new_events (log w) (log w1))) <= 2
    /\ (FileShareSingle.error (hook w1) = None ->
        FileShareSingle.isSharing (hook w1) = true
        /\ exists s,
             FileShareSingle.streamRef (hook w1) = Some s
             /\ List.filter is_publish (new_events (log w) (log w1))
                = match getVideoTracks s with
                  | t :: _ => [EvPublishTrack t FileShareSingle.video_options Resolved]
                  | [] => []
                  end
                  ++ match getAudioTracks s with
                     | t :: _ => [EvPublishTrack t FileShareSingle.audio_options Resolved]
                     | [] => []
                     end).
Proof.
  destruct w as [[sh ld er vt at_ sr] e0 lg], el as [pz mu ct du vo pr].
  cbn in Helement, Hnot_sharing. subst e0 sh.
  match goal with
  | |- context [FileShareSingle.startSharing env options ?W] =>
      destruct (FileShareSingle.startSharing env options W) as [r w1] eqn:Hrun
  end.
  unfold FileShareSingle.startSharing, FileShareSingle.startSharing_try in Hrun.
  run_in Hrun.
  destruct pz; [destruct (play_settles env lg) as [|err]|].
  all: try match type of Hrun with
       | context [captureStream_returns ?e ?l] =>
           destruct (captureStream_returns e l) as [s|err]
       end.
  all: try (destruct (getVideoTracks s) as [|v vs] eqn:Hv).
  all: try match type of Hrun with
       | context [publishTrack_settles ?e ?l ?t ?o] =>
           destruct (publishTrack_settles e l t o) as [|err]
       end.
  all: try (destruct (getAudioTracks s) as [|a ts] eqn:Ha).
  all: try match type of Hrun with
       | context [publishTrack_settles ?e ?l ?t ?o] =>
           destruct (publishTrack_settles e l t o) as [|err']
       end.
  all: destruct (onTrackPublished options) eqn:HonPublished,
                (onError options) eqn:HonError.
  all: try match type of Hrun with
       | context [FileShareSingle.stopSharing ?e ?o ?W] =>
           destruct (single_stopSharing_run e o W)
             as (w3 & d3 & Hstop & Hlog3 & Htear & _ & Herr3 & _);
           rewrite Hstop in Hrun;
           destruct w3 as [[sh3 ld3 er3 vt3 at3 sr3] e3 l3];
           cbn [hook log videoElement FileShareSingle.error] in Hlog3, Herr3;
           subst l3;
           destruct (teardown_no_start_calls _ Htear) as [Hpub _];
           specialize (Herr3 ltac:(discriminate))
       end.
  all: run_in Hrun.
  all: injection Hrun as <- <-.
  all: eexists; (split; [reflexivity|]).
  all: cbn [log hook FileShareSingle.error FileShareSingle.isSharing
            FileShareSingle.streamRef FileShareSingle.setIsLoading
            FileShareSingle.isLoading FileShareSingle.videoTrackRef
            FileShareSingle.audioTrackRef].
  all: rewrite <- ?app_assoc; cbn [app]; rewrite ?new_events_app, ?new_events_same.
  all: rewrite ?List.filter_app; cbn [List.filter is_publish app]; rewrite ?Hpub;
    cbn [length app].
  all: split; [lia|].
  all: intros Hnone; first [contradiction (Herr3 Hnone) | discriminate Hnone | idtac].
  all: split; [reflexivity|]; eexists; split; [reflexivity|]; rewrite ?Hv, ?Ha; reflexivity.
Qed.

(** The single-audio draft of [startSharing] publishes the first video
    track and the first audio track of the captured stream and no other
    track.  Started on a bound element while not sharing, it always returns
    and makes at most two publish calls; when it stored no error it ends
    sharing, and its publish calls are the first video track as
    'shared-video-file' followed by the first audio track as
    'shared-video-audio', however many audio tracks the stream has. *)
Theorem single_audio_start_publishes_first_tracks (env : Env) (options : Callbacks)
    (w : World FileShareSingle.Hook) (el : HTMLVideoElement)
    (Helement : videoElement w = Some el)
    (Hnot_sharing : FileShareSingle.isSharing (hook w) = false) :
  exists w1,
    FileShareSingle.startSharing env options w = (Returned tt, w1)
    /\ length (List.filter is_publish (new_events (log w) (log w1))) <= 2
    /\ (FileShareSingle.error (hook w1) = None ->
        FileShareSingle.isSharing (hook w1) = true
        /\ exists s,
             FileShareSingle.streamRef (hook w1) = Some s
             /\ List.filter is_publish (new_events (log w) (log w1))
                = match getVideoTracks s with
                  | t :: _ => [EvPublishTrack t FileShareSingle.video_options Resolved]
                  | [] => []
                  end
                  ++ match getAudioTracks s with
                     | t :: _ => [EvPublishTrack t FileShareSingle.audio_options Resolved]
                     | [] => []
                     end).
Proof. exact (single_startSharing_run env options w el Helement Hnot_sharing). Qed.

Lemma single_audio_start_publishes_first_tracks_witness :
  exists w1,
    FileShareSingle.startSharing ex_env_ok ex_callbacks ex_idle_single = (Returned tt, w1)
    /\ length (List.filter is_publish (new_events (log ex_idle_single) (log w1))) <= 2.
Proof.
  destruct (single_audio_start_publishes_first_tracks ex_env_ok ex_callbacks ex_idle_single
              ex_loaded_element eq_refl eq_refl) as (w1 & Hrun & Hlen & _).
  exists w1. split; [exact Hrun | exact Hlen].
Defined.

(** ** Starting: the publish calls of the two versions of the hook *)

(** C2, as stated, fails on the single-audio hook of [unnamed/part_005],
    the second place it cites: the start succeeds on a stream with two audio
    tracks, and the only audio track published is the first. *)
Lemma single_audio_start_skips_second_audio_track :
  fst (FileShareSingle.startSharing ex_env_ok ex_callbacks ex_idle_single) = Returned tt
  /\ FileShareSingle.error (hook ex_sharing_single) = None
  /\ FileShareSingle.isSharing (hook ex_sharing_single) = true
  /\ getAudioTracks ex_stream = [ex_audio_track; ex_audio_track']
  /\ List.filter is_publish (log ex_sharing_single)
     = [EvPublishTrack ex_video_track FileShareSingle.video_options Resolved;
        EvPublishTrack ex_audio_track FileShareSingle.audio_options Resolved].
Proof. repeat split. Qed.

(** C2, amended: after a [startSharing] that recorded no error, on a bound
    element and an engine that was not sharing, [isSharing] is true, the
    captured stream [s] is retained, and the publish calls made are, in this
    order and all resolved: one for the first video track, if any, named
    "shared-video-file", of source [ScreenShare], with [simulcast: false];
    then, in the hook that keeps one handle per audio track
    ([unnamed/part_001]), one for each audio track, named
    "shared-video-audio" and carrying the stream's id; and in the
    single-audio hook ([unnamed/part_005]), one for the first audio track
    only, if any, named "shared-video-audio". *)
Theorem startSharing_publish_calls_by_hook (env : Env) (options : Callbacks)
    (w : World FileShare.Hook) (v : World FileShareSingle.Hook)
    (el el' : HTMLVideoElement) :
  (videoElement w = Some el ->
   FileShare.isSharing (hook w) = false ->
   FileShare.error (hook (snd (FileShare.startSharing env options w))) = None ->
   fst (FileShare.startSharing env options w) = Returned tt
   /\ FileShare.isSharing (hook (snd (FileShare.startSharing env options w))) = true
   /\ exists s,
        FileShare.streamRef (hook (snd (FileShare.startSharing env options w))) = Some s
        /\ List.filter is_publish
             (new_events (log w) (log (snd (FileShare.startSharing env options w))))
           = match getVideoTracks s with
             | t :: _ => [EvPublishTrack t (FileShare.video_options s) Resolved]
             | [] => []
             end
             ++ map (fun t => EvPublishTrack t (FileShare.audio_options s) Resolved)
                  (getAudioTracks s))
  /\ (videoElement v = Some el' ->
      FileShareSingle.isSharing (hook v) = false ->
      FileShareSingle.error (hook (snd (FileShareSingle.startSharing env options v))) = None ->
      fst (FileShareSingle.startSharing env options v) = Returned tt
      /\ FileShareSingle.isSharing (hook (snd (FileShareSingle.startSharing env options v)))
         = true
      /\ exists s,
           FileShareSingle.streamRef (hook (snd (FileShareSingle.startSharing env options v)))
           = Some s
           /\ List.filter is_publish
                (new_events (log v) (log (snd (FileShareSingle.startSharing env options v))))
              = match getVideoTracks s with
                | t :: _ => [EvPublishTrack t FileShareSingle.video_options Resolved]
                | [] => []
                end
                ++ match getAudioTracks s with
                   | t :: _ => [EvPublishTrack t FileShareSingle.audio_options Resolved]
                   | [] => []
                   end).
Proof.
  split.
  - intros Hel Hnot Hok.
    destruct (multi_audio_start_publishes_each_track env options w el Hel Hnot Hok)
      as (Hret & Hsharing & s & Hs & Hpub).
    split; [exact Hret|]. split; [exact Hsharing|].
    exists s. split; [exact Hs|]. rewrite Hpub. reflexivity.
  - intros Hel Hnot Hok.
    destruct (single_startSharing_run env options v el' Hel Hnot)
      as (v1 & Hrun & _ & Hpub).
    rewrite Hrun in Hok |- *. cbn [fst snd] in Hok |- *.
    split; [reflexivity|]. exact (Hpub Hok).
Qed.

Lemma startSharing_publish_calls_by_hook_witness :
  List.filter is_publish (log ex_sharing)
  = [EvPublishTrack ex_video_track (FileShare.video_options ex_stream) Resolved;
     EvPublishTrack ex_audio_track (FileShare.audio_options ex_stream) Resolved;
     EvPublishTrack ex_audio_track' (FileShare.audio_options ex_stream) Resolved]
  /\ List.filter is_publish (log ex_sharing_single)
     = [EvPublishTrack ex_video_track FileShareSingle.video_options Resolved;
        EvPublishTrack ex_audio_track FileShareSingle.audio_options Resolved].
Proof.
  destruct (startSharing_publish_calls_by_hook ex_env_ok ex_callbacks ex_idle
              ex_idle_single ex_loaded_element ex_loaded_element) as [Hmulti Hsingle].
  destruct (Hmulti eq_refl eq_refl eq_refl) as (_ & _ & s & Hs & Hpub).
  destruct (Hsingle eq_refl eq_refl eq_refl) as (_ & _ & s' & Hs' & Hpub').
  injection Hs as <-. injection Hs' as <-.
  split; [exact Hpub | exact Hpub'].
Defined.

(** ** The share button and the coordinator *)



(** Whatever sequence of operations the context value of [useShare.ts]
    goes through, with whatever handlers, an active mode implies
    [isSharing]. *)
Theorem active_mode_implies_sharing (ops : list UseShare.Op) :
  UseShare.activeType (UseShare.run_ops ops UseShare.initial) <> None ->
  UseShare.isSharing (UseShare.run_ops ops UseShare.initial) = true.
Proof.
  unfold UseShare.run_ops.
  assert (Hinv : forall s,
            (UseShare.activeType s <> None -> UseShare.isSharing s = true) ->
            UseShare.activeType (foldl (fun s o => UseShare.run_op o s) s ops) <> None ->
            UseShare.isSharing (foldl (fun s o => UseShare.run_op o s) s ops) = true).
  { induction ops as [|o ops IH]; intros s Hs; [exact Hs|].
    cbn [foldl]. apply IH.
    destruct o as [ | | |sharing type|fn|]; try exact Hs.
    - destruct sharing; cbn; [reflexivity | intros Hn; contradiction].
    - destruct (UseShare_stop_spec s) as (_ & Hact & _).
      cbn [UseShare.run_op]. rewrite Hact. intros Hn. contradiction. }
  apply Hinv. intros Hn. contradiction.
Qed.

Lemma active_mode_implies_sharing_witness :
  UseShare.isSharing
    (UseShare.run_ops
       [UseShare.OpOpen; UseShare.OpSetSharing true (Some VIDEO);
        UseShare.OpSetStopHandler (Some ex_failing_handler)] UseShare.initial) = true.
Proof.
  apply (active_mode_implies_sharing
           [UseShare.OpOpen; UseShare.OpSetSharing true (Some VIDEO);
            UseShare.OpSetStopHandler (Some ex_failing_handler)]).
  discriminate.
Defined.

(** The converse fails: [setSharing(true)] without a type leaves
    [isSharing] true with no active mode. *)
Example sharing_without_mode :
  UseShare.isSharing (UseShare.setSharing true None UseShare.initial) = true
  /\ UseShare.activeType (UseShare.setSharing true None UseShare.initial) = None.
Proof. split; reflexivity. Qed.

Lemma ShareVideo_file_after_calls (calls : list ShareVideo.Call) : forall s,
  forallb (fun c => negb (ShareVideo_is_file_call c)) calls = true ->
  ShareVideo.selectedFile (foldl (fun s c => ShareVideo.run_call c s) s calls)
  = ShareVideo.selectedFile s
  /\ ShareVideo.videoElement (foldl (fun s c => ShareVideo.run_call c s) s calls)
     = ShareVideo.videoElement s.
Proof.
  induction calls as [|c calls IH]; intros s Hcalls; [split; reflexivity|].
  cbn in Hcalls. apply andb_true_iff in Hcalls as [Hc Hcalls].
  cbn [foldl]. destruct (IH (ShareVideo.run_call c s) Hcalls) as [-> ->].
  destruct c as [ | | |sharing type|fn|file|element]; try discriminate Hc;
    try (split; reflexivity).
  destruct sharing; split; reflexivity.
Qed.

(** [stop] decides on the mode it was called in.  Called in video mode it
    clears the selected file and the bound element, whatever the handler
    does (reject, change the mode, even select a file).  Called in screen
    mode with a handler that selects no file and binds no element, it
    leaves both in place. *)
Theorem stop_clears_file_in_video_mode_only (v s : ShareVideo.State)
    (calls : list ShareVideo.Call) (settles : Settled)
    (Hvideo : ShareVideo.activeType v = Some VIDEO)
    (Hscreen : ShareVideo.activeType s = Some SCREEN)
    (Hhandler : ShareVideo.stopHandlerRef s = Some (ShareVideo.mkStopHandler calls settles))
    (Hcalls : forallb (fun c => negb (ShareVideo_is_file_call c)) calls = true) :
  (ShareVideo.selectedFile (snd (ShareVideo.stop v)) = None
   /\ ShareVideo.videoElement (snd (ShareVideo.stop v)) = None)
  /\ (ShareVideo.selectedFile (snd (ShareVideo.stop s)) = ShareVideo.selectedFile s
      /\ ShareVideo.videoElement (snd (ShareVideo.stop s)) = ShareVideo.videoElement s).
Proof.
  split.
  - unfold ShareVideo.stop. rewrite Hvideo. split; reflexivity.
  - unfold ShareVideo.stop. rewrite Hscreen, Hhandler.
    cbn [ShareVideo.call_handler].
    destruct (ShareVideo_file_after_calls calls s Hcalls) as [Hf He].
    destruct settles; cbn; rewrite Hf, He; split; reflexivity.
Qed.

Lemma stop_clears_file_in_video_mode_only_witness :
  ShareVideo.selectedFile (snd (ShareVideo.stop ex_video_file_shared)) = None
  /\ ShareVideo.selectedFile (snd (ShareVideo.stop ex_screen_shared_with_file)) = Some ex_mp4.
Proof.
  destruct (stop_clears_file_in_video_mode_only ex_video_file_shared
              ex_screen_shared_with_file
              [ShareVideo.CallSetSharing false None; ShareVideo.CallSetStopHandler None]
              Resolved eq_refl eq_refl eq_refl eq_refl) as [[Hv _] [Hs _]].
  split; [exact Hv | exact Hs].
Defined.

(** ** The remote playback controls: registration and mirroring *)

(** The effect registers both methods when an element is bound and video
    sharing is active, and unregisters both otherwise; no other method of
    the room is touched either way. *)
Theorem effect_registers_exactly_when_active (videoSharingActive : bool)
    (w : VideoControls.World) (method : string)
    (Hother : method <> VideoControls.PAUSE_STREAM_METHOD
              /\ method <> VideoControls.SEEK_STREAM_METHOD) :
  VideoControls.rpcMethods (VideoControls.effect videoSharingActive w) !! method
  = VideoControls.rpcMethods w !! method
  /\ (if videoSharingActive && bool_decide (VideoControls.videoElement w <> None)
      then is_Some (VideoControls.rpcMethods (VideoControls.effect videoSharingActive w)
                      !! VideoControls.PAUSE_STREAM_METHOD)
           /\ is_Some (VideoControls.rpcMethods (VideoControls.effect videoSharingActive w)
                         !! VideoControls.SEEK_STREAM_METHOD)
      else VideoControls.rpcMethods (VideoControls.effect videoSharingActive w)
             !! VideoControls.PAUSE_STREAM_METHOD = None
           /\ VideoControls.rpcMethods (VideoControls.effect videoSharingActive w)
                !! VideoControls.SEEK_STREAM_METHOD = None).
Proof.
  destruct Hother as [Hp Hs].
  assert (Hps : VideoControls.SEEK_STREAM_METHOD <> VideoControls.PAUSE_STREAM_METHOD)
    by (symmetry; apply methods_distinct).
  destruct w as [m e r l].
  unfold VideoControls.effect, VideoControls.registerRpcMethod,
    VideoControls.unregisterRpcMethod, VideoControls.with_rpcMethods,
    VideoControls.with_model, VideoControls.with_listening.
  cbn [VideoControls.videoElement VideoControls.rpcMethods VideoControls.model
       VideoControls.listening].
  destruct e as [el|], videoSharingActive;
    cbn [VideoControls.rpcMethods andb];
    try (rewrite bool_decide_true by discriminate);
    try (rewrite bool_decide_false by (intros Hn; apply Hn; reflexivity)).
  - rewrite !lookup_insert_ne by congruence.
    split; [reflexivity|]. split.
    + rewrite ?lookup_insert_ne by exact Hps. rewrite lookup_insert_eq. eauto.
    + rewrite lookup_insert_eq. eauto.
  - rewrite !lookup_delete_ne by congruence. split; [reflexivity|]. split.
    + rewrite ?lookup_delete_ne by exact Hps. apply lookup_delete_eq.
    + apply lookup_delete_eq.
  - rewrite !lookup_delete_ne by congruence. split; [reflexivity|]. split.
    + rewrite ?lookup_delete_ne by exact Hps. apply lookup_delete_eq.
    + apply lookup_delete_eq.
  - rewrite !lookup_delete_ne by congruence. split; [reflexivity|]. split.
    + rewrite ?lookup_delete_ne by exact Hps. apply lookup_delete_eq.
    + apply lookup_delete_eq.
Qed.

Lemma effect_registers_exactly_when_active_witness :
  VideoControls.rpcMethods (VideoControls.effect true ex_playing) !! "Chat"
  = VideoControls.rpcMethods ex_playing !! "Chat".
Proof.
  assert (Hother : "Chat" <> VideoControls.PAUSE_STREAM_METHOD
                   /\ "Chat" <> VideoControls.SEEK_STREAM_METHOD)
    by (split; discriminate).
  destruct (effect_registers_exactly_when_active true ex_playing "Chat" Hother) as [H _].
  exact H.
Defined.

(** The effect's cleanup removes the listeners and nothing else: the two
    methods stay registered and answer as before, while the events of the
    element no longer reach the read model. *)
Theorem cleanup_keeps_methods_registered (w : VideoControls.World) (method : string)
    (offset : number) (ev : VideoControls.MediaEvent) (el : HTMLVideoElement) :
  VideoControls.rpcMethods (VideoControls.cleanup w) = VideoControls.rpcMethods w
  /\ fst <$> VideoControls.invoke method offset (VideoControls.cleanup w)
     = fst <$> VideoControls.invoke method offset w
  /\ VideoControls.model (VideoControls.dispatch ev el (VideoControls.cleanup w))
     = VideoControls.model w.
Proof.
  split; [reflexivity|]. split.
  - unfold VideoControls.invoke. cbn.
    destruct (VideoControls.rpcMethods w !! method) as [[p|c d]|]; reflexivity.
  - reflexivity.
Qed.

(** A remote call writes the read model only.  While the listeners are
    attached, the next element event of the matching kind erases what the
    call wrote: the world after the call and the event is the world after
    the event alone. *)
Theorem element_event_erases_remote_write (h : VideoControls.RpcHandler) (offset : number)
    (ev : VideoControls.MediaEvent) (el : HTMLVideoElement) (w : VideoControls.World)
    (Hlistening : VideoControls.listening w = true)
    (Hkind : match h, ev with
             | VideoControls.SeekHandler _ _, VideoControls.timeupdate => True
             | VideoControls.PauseHandler _, VideoControls.play
             | VideoControls.PauseHandler _, VideoControls.pause
             | VideoControls.PauseHandler _, VideoControls.ended => True
             | _, _ => False
             end) :
  VideoControls.videoElement (snd (VideoControls.run_handler h offset w))
  = VideoControls.videoElement w
  /\ VideoControls.dispatch ev el (snd (VideoControls.run_handler h offset w))
     = VideoControls.dispatch ev el w.
Proof.
  destruct w as [m e r l]. cbn in Hlistening. subst l.
  destruct h as [p|c d], ev; try contradiction; split; reflexivity.
Qed.

Lemma element_event_erases_remote_write_witness :
  VideoControls.dispatch VideoControls.timeupdate ex_playing_element
    (snd (VideoControls.run_handler (VideoControls.SeekHandler (Num 0) (Num 0)) (Num 20)
            ex_playing))
  = VideoControls.dispatch VideoControls.timeupdate ex_playing_element ex_playing.
Proof.
  exact (proj2 (element_event_erases_remote_write
                  (VideoControls.SeekHandler (Num 0) (Num 0)) (Num 20)
                  VideoControls.timeupdate ex_playing_element ex_playing eq_refl I)).
Defined.

Lemma dispatch_all_model (evs : list (VideoControls.MediaEvent * HTMLVideoElement)) :
  forall w w' : VideoControls.World,
  VideoControls.model w = VideoControls.model w' ->
  VideoControls.listening w = VideoControls.listening w' ->
  VideoControls.model (VideoControls.dispatch_all evs w)
  = VideoControls.model (VideoControls.dispatch_all evs w').
Proof.
  unfold VideoControls.dispatch_all.
  induction evs as [|[ev el] evs IH]; intros w w' Hm Hl; [exact Hm|].
  cbn [foldl fst snd]. apply IH.
  - destruct w as [m e r l], w' as [m' e' r' l']. cbn in Hm, Hl. subst m' l'.
    unfold VideoControls.dispatch. cbn. destruct l, ev; reflexivity.
  - destruct w as [m e r l], w' as [m' e' r' l']. cbn in Hm, Hl. subst m' l'.
    unfold VideoControls.dispatch. cbn. destruct l, ev; reflexivity.
Qed.

(** Activation resynchronises the mirror: after the effect ran on a bound
    element with sharing active, and after any run of element events, the
    read model is the same whatever it held before activation, whatever
    methods the room had and whether listeners were attached. *)
Theorem activation_forgets_stale_model (m m' : VideoControls.ReadModel)
    (el : HTMLVideoElement) (r r' : gmap string VideoControls.RpcHandler) (l l' : bool)
    (evs : list (VideoControls.MediaEvent * HTMLVideoElement)) :
  VideoControls.model
    (VideoControls.dispatch_all evs
       (VideoControls.effect true (VideoControls.mkWorld m (Some el) r l)))
  = VideoControls.model
      (VideoControls.dispatch_all evs
         (VideoControls.effect true (VideoControls.mkWorld m' (Some el) r' l')))
  /\ VideoControls.model (VideoControls.effect true (VideoControls.mkWorld m (Some el) r l))
     = VideoControls.mkReadModel (negb (paused el)) (el_currentTime el) (el_duration el)
         (el_volume el) (el_playbackRate el).
Proof.
  split; [|reflexivity].
  apply dispatch_all_model; reflexivity.
Qed.


(** ** The file player: error messages and object URLs *)

(** [handleError] reports through [onError] exactly when the element is
    mounted and the callback was supplied, and never anything but one of
    five messages.  The message tells the four media error kinds apart: two
    error codes get the same message only when they are equal or both
    outside the four known codes, and a missing error object reads like an
    unknown code. *)
Theorem error_message_identifies_the_code (code code' : Z) (mounted onError_given : bool) :
  (VideoFilePlayer.errorMessage (Some code) = VideoFilePlayer.errorMessage (Some code')
   <-> code = code' \/ (~ (1 <= code <= 4)%Z /\ ~ (1 <= code' <= 4)%Z))
  /\ (VideoFilePlayer.errorMessage (Some code) = VideoFilePlayer.errorMessage None
      <-> ~ (1 <= code <= 4)%Z)
  /\ (VideoFilePlayer.handleError mounted onError_given (Some code)
      = if mounted && onError_given
        then Some (mkError (VideoFilePlayer.errorMessage (Some code)))
        else None).
Proof.
  assert (Hcases : forall c : Z,
    ((c = 1 /\ VideoFilePlayer.errorMessage (Some c) = "Video loading was aborted")
    \/ (c = 2 /\ VideoFilePlayer.errorMessage (Some c) = "Network error while loading video")
    \/ (c = 3 /\ VideoFilePlayer.errorMessage (Some c) = "Video decoding failed")
    \/ (c = 4 /\ VideoFilePlayer.errorMessage (Some c) = "Video format not supported")
    \/ (~ (1 <= c <= 4) /\ VideoFilePlayer.errorMessage (Some c) = "Failed to load video file"))%Z).
  { intros c. unfold VideoFilePlayer.errorMessage, VideoFilePlayer.MEDIA_ERR_ABORTED,
      VideoFilePlayer.MEDIA_ERR_NETWORK, VideoFilePlayer.MEDIA_ERR_DECODE,
      VideoFilePlayer.MEDIA_ERR_SRC_NOT_SUPPORTED.
    destruct (Z.eqb_spec c 1); [left; split; [assumption|reflexivity]|].
    destruct (Z.eqb_spec c 2); [right; left; split; [assumption|reflexivity]|].
    destruct (Z.eqb_spec c 3); [right; right; left; split; [assumption|reflexivity]|].
    destruct (Z.eqb_spec c 4); [right; right; right; left; split; [assumption|reflexivity]|].
    right; right; right; right. split; [lia|reflexivity]. }
  split; [|split].
  - destruct (Hcases code) as [[H ->]|[[H ->]|[[H ->]|[[H ->]|[H ->]]]]],
             (Hcases code') as [[H' ->]|[[H' ->]|[[H' ->]|[[H' ->]|[H' ->]]]]];
      (split; [intros He; try discriminate He; first [left; lia | right; split; assumption]
              | intros [He|[He He']]; first [reflexivity | lia]]).
  - change (VideoFilePlayer.errorMessage None) with "Failed to load video file".
    destruct (Hcases code) as [[H ->]|[[H ->]|[[H ->]|[[H ->]|[H ->]]]]];
      (split; [intros He; try discriminate He; assumption
              | intros He; first [reflexivity | lia]]).
  - destruct mounted, onError_given; reflexivity.
Qed.

Lemma run_files_snoc (files : list (option File)) (file : option File) :
  VideoFilePlayer.run_files (files ++ [file])
  = VideoFilePlayer.set_file file (VideoFilePlayer.run_files files).
Proof. unfold VideoFilePlayer.run_files. rewrite foldl_app. reflexivity. Qed.

Lemma Player_invariant (files : list (option File)) :
  VideoFilePlayer.src (VideoFilePlayer.run_files files)
  = VideoFilePlayer.cleanup_url (VideoFilePlayer.run_files files)
  /\ VideoFilePlayer.live_urls (VideoFilePlayer.run_files files)
     = match VideoFilePlayer.cleanup_url (VideoFilePlayer.run_files files) with
       | Some u => {[u]}
       | None => ∅
       end
  /\ VideoFilePlayer.loads (VideoFilePlayer.run_files files)
     = length (List.filter (fun f : option File => bool_decide (is_Some f)) files)
  /\ VideoFilePlayer.next_url (VideoFilePlayer.run_files files)
     = VideoFilePlayer.loads (VideoFilePlayer.run_files files).
Proof.
  induction files as [|file files IH] using rev_ind; [repeat split|].
  rewrite run_files_snoc.
  destruct IH as (Hsrc & Hlive & Hloads & Hnext).
  rewrite List.filter_app, length_app, <- Hloads.
  destruct (VideoFilePlayer.run_files files) as [s lv n c k].
  cbn in Hsrc, Hlive, Hnext. subst s lv n.
  unfold VideoFilePlayer.set_file, VideoFilePlayer.run_cleanup, VideoFilePlayer.load_effect.
  destruct c as [u|], file as [f|]; cbn [VideoFilePlayer.cleanup_url VideoFilePlayer.src
    VideoFilePlayer.live_urls VideoFilePlayer.next_url VideoFilePlayer.loads List.filter
    length];
    rewrite ?(bool_decide_true (is_Some (Some f))) by eauto;
    rewrite ?(bool_decide_false (is_Some (@None File))) by (apply is_Some_None);
    cbn [length]; repeat split; try lia; try reflexivity;
    rewrite ?difference_diag_L; apply (right_id_L ∅ (∪)) || reflexivity.
Qed.

(** The player keeps at most one object URL alive.  After any sequence of
    [file] props, the only URL created and not revoked is the one the
    element's [src] holds, and there is one exactly when the last file was
    not [null]; [load()] ran once per non-null file; and unmounting revokes
    the last URL, so no object URL outlives the component. *)
Theorem object_urls_do_not_leak (files : list (option File)) :
  VideoFilePlayer.live_urls (VideoFilePlayer.run_files files)
  = match VideoFilePlayer.src (VideoFilePlayer.run_files files) with
    | Some u => {[u]}
    | None => ∅
    end
  /\ (is_Some (VideoFilePlayer.src (VideoFilePlayer.run_files files))
      <-> exists f, last files = Some (Some f))
  /\ VideoFilePlayer.loads (VideoFilePlayer.run_files files)
     = length (List.filter (fun f : option File => bool_decide (is_Some f)) files)
  /\ VideoFilePlayer.live_urls (VideoFilePlayer.unmount (VideoFilePlayer.run_files files)) = ∅
  /\ VideoFilePlayer.src (VideoFilePlayer.unmount (VideoFilePlayer.run_files files)) = None.
Proof.
  destruct (Player_invariant files) as (Hsrc & Hlive & Hloads & Hnext).
  split; [rewrite Hsrc; exact Hlive|]. split; [|split; [exact Hloads|]].
  - clear. destruct files as [|file files _] using rev_ind.
    + cbn. split; [intros [? H]; discriminate H | intros [? H]; discriminate H].
    + rewrite run_files_snoc, last_snoc.
      unfold VideoFilePlayer.set_file, VideoFilePlayer.load_effect.
      destruct file as [f|]; cbn [VideoFilePlayer.src].
      * split; eauto.
      * split; [|intros [? H]; discriminate H].
        unfold VideoFilePlayer.run_cleanup.
        destruct (Player_invariant files) as (Hs & _).
        destruct (VideoFilePlayer.cleanup_url (VideoFilePlayer.run_files files)) eqn:Hc;
          cbn [VideoFilePlayer.src].
        -- intros [? H]; discriminate H.
        -- rewrite Hs. intros [? H]; discriminate H.
  - unfold VideoFilePlayer.unmount, VideoFilePlayer.run_cleanup.
    destruct (VideoFilePlayer.cleanup_url (VideoFilePlayer.run_files files)) as [u|] eqn:Hc;
      cbn [VideoFilePlayer.live_urls VideoFilePlayer.src].
    + split; [rewrite Hlive; apply difference_diag_L | reflexivity].
    + split; [exact Hlive | rewrite Hsrc; reflexivity].
Qed.

(** ** The time display *)

Lemma string_length_app (s1 s2 : string) :
  String.length (s1 +:+ s2) = String.length s1 + String.length s2.
Proof. induction s1 as [|c s1 IH]; simpl; [reflexivity | f_equal; exact IH]. Qed.

Lemma string_app_inj_length (a a' b b' : string) :
  String.length a = String.length a' -> a +:+ b = a' +:+ b' -> a = a' /\ b = b'.
Proof.
  revert a'. induction a as [|c a IH]; intros [|c' a'] Hlen Heq;
    cbn in Hlen, Heq; try discriminate Hlen.
  - split; [reflexivity | exact Heq].
  - injection Heq as -> Heq. injection Hlen as Hlen.
    destruct (IH a' Hlen Heq) as [-> ->]. split; reflexivity.
Qed.

Lemma pretty_N_go_length (x : N) : forall s : string,
  String.length s <= String.length (pretty_N_go x s).
Proof.
  induction (N.lt_wf_0 x) as [x _ IH]. intros s.
  destruct (decide (x = 0%N)) as [->|Hx].
  - rewrite pretty_N_go_0. reflexivity.
  - rewrite pretty_N_go_step by lia.
    etransitivity; [|apply IH; apply N.div_lt; lia]. cbn. lia.
Qed.

Lemma pretty_Z_length_3 (z : Z) : (100 <= z)%Z -> 3 <= String.length (pretty z).
Proof.
  intros Hz. destruct z as [|p|p]; try lia.
  change (pretty (Z.pos p)) with (pretty (N.pos p)).
  unfold pretty, pretty_N. destruct (decide (N.pos p = 0%N)) as [H|_]; [discriminate H|].
  assert (Hp : (100 <= N.pos p)%N) by lia.
  rewrite pretty_N_go_step by lia.
  rewrite pretty_N_go_step by (apply N.div_str_pos; lia).
  rewrite pretty_N_go_step.
  - etransitivity; [|apply pretty_N_go_length]. cbn. lia.
  - apply N.div_str_pos. split; [lia|].
    apply N.div_le_lower_bound; lia.
Qed.

Lemma padStart2_long (s : string) : 2 <= String.length s -> padStart2 s = s.
Proof. destruct s as [|c [|c' s]]; cbn; intros H; try lia. reflexivity. Qed.

Lemma padStart2_pretty_small (m : Z) :
  (0 <= m < 100)%Z -> String.length (padStart2 (pretty m)) = 2.
Proof.
  intros Hm.
  assert (Hall : forallb (fun n : nat =>
            Nat.eqb (String.length (padStart2 (pretty (Z.of_nat n)))) 2) (seq 0 100) = true)
    by (vm_compute; reflexivity).
  rewrite forallb_forall in Hall.
  specialize (Hall (Z.to_nat m)). rewrite Z2Nat.id in Hall by lia.
  apply Nat.eqb_eq, Hall, in_seq. lia.
Qed.

Lemma padStart2_pretty_small_inj (m m' : Z) :
  (0 <= m < 100)%Z -> (0 <= m' < 100)%Z ->
  padStart2 (pretty m) = padStart2 (pretty m') -> m = m'.
Proof.
  intros Hm Hm' Heq.
  assert (Hall : forallb (fun n : nat => forallb (fun n' : nat =>
            implb (String.eqb (padStart2 (pretty (Z.of_nat n)))
                              (padStart2 (pretty (Z.of_nat n'))))
                  (Nat.eqb n n')) (seq 0 100)) (seq 0 100) = true)
    by (vm_compute; reflexivity).
  rewrite forallb_forall in Hall.
  specialize (Hall (Z.to_nat m)). rewrite Z2Nat.id in Hall by lia.
  assert (Hin : In (Z.to_nat m) (seq 0 100)) by (apply in_seq; lia).
  specialize (Hall Hin). rewrite forallb_forall in Hall.
  specialize (Hall (Z.to_nat m')). rewrite Z2Nat.id in Hall by lia.
  assert (Hin' : In (Z.to_nat m') (seq 0 100)) by (apply in_seq; lia).
  specialize (Hall Hin'). rewrite Heq, String.eqb_refl in Hall. cbn in Hall.
  apply Nat.eqb_eq in Hall. lia.
Qed.

Lemma padStart2_pretty_inj (m m' : Z) :
  (0 <= m)%Z -> (0 <= m')%Z ->
  padStart2 (pretty m) = padStart2 (pretty m') -> m = m'.
Proof.
  intros Hm Hm' Heq.
  destruct (Z_lt_le_dec m 100) as [Hs|Hl], (Z_lt_le_dec m' 100) as [Hs'|Hl'].
  - apply padStart2_pretty_small_inj; [lia | lia | exact Heq].
  - exfalso. apply (f_equal String.length) in Heq.
    rewrite padStart2_pretty_small in Heq by lia.
    rewrite padStart2_long in Heq by (pose proof (pretty_Z_length_3 m' Hl'); lia).
    pose proof (pretty_Z_length_3 m' Hl'). lia.
  - exfalso. apply (f_equal String.length) in Heq.
    rewrite (padStart2_pretty_small m') in Heq by lia.
    rewrite padStart2_long in Heq by (pose proof (pretty_Z_length_3 m Hl); lia).
    pose proof (pretty_Z_length_3 m Hl). lia.
  - pose proof (pretty_Z_length_3 m Hl) as H3. pose proof (pretty_Z_length_3 m' Hl') as H3'.
    rewrite (padStart2_long (pretty m)), (padStart2_long (pretty m')) in Heq by lia.
    exact (pretty_Z_inj m m' Heq).
Qed.

(** The time display tells whole seconds apart: two whole numbers of
    seconds from 0 to [Number.MAX_SAFE_INTEGER] with the same display are
    equal.  Its seconds field always has two characters; from 100 minutes on
    the minutes field grows instead of wrapping. *)
Theorem formatTime_injective (seconds seconds' : Z)
    (Hseconds : (0 <= seconds <= MAX_SAFE_INTEGER)%Z)
    (Hseconds' : (0 <= seconds' <= MAX_SAFE_INTEGER)%Z)
    (Hsame : formatTime (Num seconds) = formatTime (Num seconds')) :
  seconds = seconds'.
Proof.
  destruct Hseconds as [Hseconds _], Hseconds' as [Hseconds' _].
  unfold formatTime in Hsame. cbv zeta in Hsame.
  rewrite !Z.rem_mod_nonneg in Hsame by lia.
  assert (Hlen : forall z : Z, (0 <= z)%Z ->
            String.length (padStart2 (pretty (z mod 60)%Z)) = 2).
  { intros z Hz. apply padStart2_pretty_small.
    pose proof (Z.mod_pos_bound z 60). lia. }
  pose proof (f_equal String.length Hsame) as Hl.
  rewrite !string_length_app, !Hlen in Hl by assumption.
  apply string_app_inj_length in Hsame; [|lia].
  destruct Hsame as [Hmins Hsecs].
  apply string_app_inj_length in Hsecs; [|reflexivity].
  destruct Hsecs as [_ Hsecs].
  apply padStart2_pretty_inj in Hmins; [| apply Z.div_pos; lia | apply Z.div_pos; lia].
  apply padStart2_pretty_small_inj in Hsecs;
    [| pose proof (Z.mod_pos_bound seconds 60); lia
     | pose proof (Z.mod_pos_bound seconds' 60); lia].
  rewrite (Z.div_mod seconds 60), (Z.div_mod seconds' 60) by lia.
  rewrite Hmins, Hsecs. reflexivity.
Qed.

Lemma formatTime_injective_witness :
  formatTime (Num 125) = "02:05" /\ (125 = 125)%Z.
Proof.
  split; [reflexivity|].
  apply (formatTime_injective 125 125);
    [unfold MAX_SAFE_INTEGER; lia | unfold MAX_SAFE_INTEGER; lia | reflexivity].
Defined.

(** Under 100 minutes the display of a whole number of seconds has
    exactly five characters; a non-finite value is shown as "00:00", the
    display of second zero. *)
Theorem formatTime_five_characters (seconds : Z)
    (Hrange : (0 <= seconds < 6000)%Z) :
  String.length (formatTime (Num seconds)) = 5
  /\ formatTime NaN = formatTime (Num 0).
Proof.
  split; [|reflexivity].
  unfold formatTime. cbv zeta.
  rewrite Z.rem_mod_nonneg by lia.
  rewrite !string_length_app, !padStart2_pretty_small; [reflexivity | |].
  - pose proof (Z.mod_pos_bound seconds 60). lia.
  - split; [apply Z.div_pos; lia | apply Z.div_lt_upper_bound; lia].
Qed.

Lemma formatTime_five_characters_witness :
  String.length (formatTime (Num 3599)) = 5.
Proof.
  exact (proj1 (formatTime_five_characters 3599 ltac:(lia))).
Defined.
